(** * SmartMailr: the classify -> plan -> execute -> reply pipeline

    A shallow embedding of the agent functions of
    [smart_mailr_kaggle_notebook_git_hub_code.py] and the properties of
    its specification.

    Conventions of the embedding.
    - A Python [str] is a [string]; a character stands for the code point
      of the same number (U+0000 to U+00FF).  The [str] methods used by
      the program ([lower], [strip], [splitlines], [split], [in], [join])
      are Python's, restricted to that range.  The em dash of the reply
      templates lies outside of it and is kept as its three UTF-8 bytes,
      none of which is a space, a line boundary or a cased letter.
    - A [dict] is a [gmap string value]; [None], [bool], [str],
      [datetime] and nested [dict] values are the constructors of
      [value].
    - The two clocks the program reads, [datetime.now()] and
      [time.time()], are explicit: a worker takes the reading it makes,
      the executor takes the sequence of readings of the run.
    - An exception is the [Raise] result of a computation. *)

From Stdlib Require Import ZArith QArith Ascii String List Lia Bool.
From Stdlib Require Import DecimalString DecimalZ.
From stdpp Require Import base option strings gmap.

Set Warnings "-register-all".

Local Open Scope Z_scope.
Local Open Scope stdpp_scope.

(** ** Python [str] *)

Module Str.

Definition LF : string := String "010"%char "".

Definition ord (c : ascii) : N := N_of_ascii c.

(** [str.isspace] on one character: TAB LF VT FF CR, FS GS RS US, SPACE,
    NEL (U+0085) and NBSP (U+00A0). *)
Definition isspace (c : ascii) : bool :=
  let n := ord c in
  (((9 <=? n) && (n <=? 13)) || ((28 <=? n) && (n <=? 32))
   || (n =? 133) || (n =? 160))%N.

(** The line boundaries of [str.splitlines]: LF VT FF CR, FS GS RS, NEL. *)
Definition islinebreak (c : ascii) : bool :=
  let n := ord c in
  (((10 <=? n) && (n <=? 13)) || ((28 <=? n) && (n <=? 30)) || (n =? 133))%N.

Definition isCR (c : ascii) : bool := (ord c =? 13)%N.
Definition isLF (c : ascii) : bool := (ord c =? 10)%N.

(** [str.lower] on one character: A-Z, and U+00C0-U+00DE but the
    multiplication sign U+00D7, move up by 32. *)
Definition lower_char (c : ascii) : ascii :=
  let n := ord c in
  if (((65 <=? n) && (n <=? 90))
      || ((192 <=? n) && (n <=? 222) && negb (n =? 215)))%N
  then ascii_of_N (n + 32) else c.

Fixpoint lower (s : string) : string :=
  match s with
  | EmptyString => EmptyString
  | String c r => String (lower_char c) (lower r)
  end.

Definition is_empty (s : string) : bool :=
  match s with EmptyString => true | String _ _ => false end.

Fixpoint lstrip (s : string) : string :=
  match s with
  | EmptyString => EmptyString
  | String c r => if isspace c then lstrip r else s
  end.

Fixpoint rstrip (s : string) : string :=
  match s with
  | EmptyString => EmptyString
  | String c r =>
      let r' := rstrip r in
      if isspace c && is_empty r' then EmptyString else String c r'
  end.

(** [s.strip()] *)
Definition strip (s : string) : string := rstrip (lstrip s).

(** [s.splitlines()]: the lines of [s] without their boundaries; CR LF
    is one boundary; a boundary at the very end opens no further line. *)
Fixpoint splitlines (s : string) : list string :=
  match s with
  | EmptyString => []
  | String c r =>
      if islinebreak c then
        EmptyString ::
          match r with
          | String c' r' =>
              if isCR c && isLF c' then splitlines r' else splitlines r
          | EmptyString => []
          end
      else
        match splitlines r with
        | [] => [String c EmptyString]
        | l :: ls => String c l :: ls
        end
  end.

(** [sep.join(l)] *)
Definition join (sep : string) (l : list string) : string :=
  String.concat sep l.

(** [w in s]: [w] occurs in [s] as a contiguous run of characters. *)
Fixpoint contains (w s : string) : bool :=
  String.prefix w s
  || match s with
     | EmptyString => false
     | String _ r => contains w r
     end.

(** [s.split(sep)[0]] for a one-character [sep]: what stands before the
    first [sep], the whole of [s] when it has none. *)
Fixpoint split_head (sep : ascii) (s : string) : string :=
  match s with
  | EmptyString => EmptyString
  | String c r =>
      if Ascii.eqb c sep then EmptyString else String c (split_head sep r)
  end.

(** [s.startswith(p)] *)
Definition startswith (p s : string) : bool := String.prefix p s.

(** [str(n)] for an [int] *)
Definition of_int (n : Z) : string := NilEmpty.string_of_int (Z.to_int n).

End Str.

(** ** QualityAssurance *)

Definition closing : string := "Best," +:+ Str.LF +:+ "SmartMailr".

(** [def qa_agent(text)] *)
Definition qa_agent (text : string) : string :=
  let txt :=
    Str.join Str.LF
      (map Str.strip
         (List.filter (fun line => negb (Str.is_empty (Str.strip line)))
                 (Str.splitlines text))) in
  if negb (Str.contains closing txt)
  then txt +:+ Str.LF +:+ Str.LF +:+ closing
  else txt.

(** ** Exceptions *)

Inductive exn := OverflowError | AttributeError.

Inductive result (A : Type) :=
| Return (a : A)
| Raise (e : exn).

Arguments Return {A} a.
Arguments Raise {A} e.

Definition bind {A B : Type} (c : result A) (k : A -> result B) : result B :=
  match c with
  | Return a => k a
  | Raise e => Raise e
  end.

Notation "'let*' x ':=' c 'in' k" := (bind c (fun x => k))
  (at level 10, x pattern, c at level 100, k at level 200).

Definition returns {A : Type} (c : result A) : Prop := exists a, c = Return a.

(** ** Dates and times: [datetime.datetime] *)

Record datetime := mkDatetime {
  year : Z; month : Z; day : Z;
  hour : Z; minute : Z; second : Z; microsecond : Z
}.

Definition MINYEAR : Z := 1.
Definition MAXYEAR : Z := 9999.

Definition is_leap (y : Z) : bool :=
  (y mod 4 =? 0) && (negb (y mod 100 =? 0) || (y mod 400 =? 0)).

Definition days_in_month (y m : Z) : Z :=
  if m =? 2 then (if is_leap y then 29 else 28)
  else if (m =? 4) || (m =? 6) || (m =? 9) || (m =? 11) then 30
  else 31.

(** The values a [datetime] object can hold. *)
Definition valid_datetime (d : datetime) : Prop :=
  MINYEAR <= year d <= MAXYEAR /\ 1 <= month d <= 12 /\
  1 <= day d <= days_in_month (year d) (month d) /\
  0 <= hour d < 24 /\ 0 <= minute d < 60 /\ 0 <= second d < 60 /\
  0 <= microsecond d < 1000000.

(** [d + timedelta(days=1)]: the same time on the next calendar day;
    [OverflowError] when that day is past 9999-12-31. *)
Definition plus_one_day (d : datetime) : result datetime :=
  if day d <? days_in_month (year d) (month d) then
    Return (mkDatetime (year d) (month d) (day d + 1)
                       (hour d) (minute d) (second d) (microsecond d))
  else if month d <? 12 then
    Return (mkDatetime (year d) (month d + 1) 1
                       (hour d) (minute d) (second d) (microsecond d))
  else if year d <? MAXYEAR then
    Return (mkDatetime (year d + 1) 1 1
                       (hour d) (minute d) (second d) (microsecond d))
  else Raise OverflowError.

(** [d.replace(hour=16, minute=0, second=0, microsecond=0)] *)
Definition at_16_00 (d : datetime) : datetime :=
  mkDatetime (year d) (month d) (day d) 16 0 0 0.

(** [s.zfill(w)] for the decimal numerals of non-negative numbers *)
Definition zfill (w : nat) (s : string) : string :=
  String.concat "" (repeat "0" (w - String.length s)) +:+ s.

(** [d.strftime("%Y-%m-%d %I:%M %p")] as CPython gives it on the C
    library of Linux: [%Y] is the year as a decimal number with no
    padding (four digits from the year 1000 on, fewer before), [%m],
    [%d], [%I] (the hour of the 12-hour clock) and [%M] have two
    digits, [%p] is AM or PM. *)
Definition strftime (d : datetime) : string :=
  Str.of_int (year d) +:+ "-" +:+
  zfill 2 (Str.of_int (month d)) +:+ "-" +:+
  zfill 2 (Str.of_int (day d)) +:+ " " +:+
  zfill 2 (Str.of_int ((hour d + 11) mod 12 + 1)) +:+ ":" +:+
  zfill 2 (Str.of_int (minute d)) +:+ " " +:+
  (if hour d <? 12 then "AM" else "PM").

(** ** Values and dictionaries *)

Inductive value :=
| VNone
| VBool (b : bool)
| VStr (s : string)
| VDatetime (d : datetime)
| VDict (m : gmap string value).

(** [bool(v)] *)
Definition truthy (v : value) : bool :=
  match v with
  | VNone => false
  | VBool b => b
  | VStr s => negb (Str.is_empty s)
  | VDatetime _ => true
  | VDict m => match map_to_list m with [] => false | _ :: _ => true end
  end.

(** [d.get(k)] *)
Definition get (d : gmap string value) (k : string) : value :=
  default VNone (d !! k).

(** ** Messages and plans *)

Record Email := mkEmail {
  id : Z;
  sender : string;
  subject : string;
  body : string;
  received_at : datetime
}.

(** The dictionary [{"intent": ..., "steps": [...]}] the planner builds. *)
Record Plan := mkPlan {
  intent : string;
  steps : list string
}.

(** [any(w in text for w in ws)] *)
Definition any_in (ws : list string) (text : string) : bool :=
  existsb (fun w => Str.contains w text) ws.

Definition meeting_words : list string := ["meet"; "meeting"; "schedule"; "call"].
Definition info_words : list string := ["please"; "could you"; "can you"; "send"].
Definition ack_words : list string := ["thanks"; "thank you"; "acknowledge"].

(** [def intent_agent(email)] *)
Definition intent_agent (email : Email) : string :=
  let text := Str.lower (subject email +:+ " " +:+ body email) in
  if any_in meeting_words text then "meeting_request"
  else if any_in info_words text then "info_request"
  else if any_in ack_words text then "acknowledgement"
  else "general".

(** [plan["steps"] = l] *)
Definition set_steps (plan : Plan) (l : list string) : Plan :=
  {| intent := intent plan; steps := l |}.

(** [def planner_agent(email)] *)
Definition planner_agent (email : Email) : Plan :=
  let intent := intent_agent email in
  let plan := {| intent := intent; steps := [] |} in
  if String.eqb intent "meeting_request" then
    set_steps plan ["extract_datetime"; "create_event"; "draft_reply"]
  else if String.eqb intent "info_request" then
    set_steps plan ["find_answer"; "draft_reply"]
  else if String.eqb intent "acknowledgement" then
    set_steps plan ["draft_ack"]
  else
    set_steps plan ["draft_general_reply"].

(** ** Worker steps *)

(** [def extract_datetime_agent(email)]; [now] is the reading of
    [datetime.now()] the call makes. *)
Definition extract_datetime_agent (now : datetime) (email : Email)
  : result (gmap string value) :=
  let text := Str.lower (body email) in
  let result : gmap string value := {[ "datetime" := VNone ]} in
  if Str.contains "tomorrow" text then
    let* when := plus_one_day now in
    Return (<[ "datetime" := VDatetime (at_16_00 when) ]> result)
  else if Str.contains "today" text then
    let when := now in
    Return (<[ "datetime" := VDatetime (at_16_00 when) ]> result)
  else if Str.contains "4 pm" text || Str.contains "4pm" text then
    let* when := plus_one_day now in
    Return (<[ "datetime" := VDatetime (at_16_00 when) ]> result)
  else Return result.

(** [int(x)] for a [float] [x], which is a rational: truncation towards
    zero. *)
Definition int_of_float (x : Q) : Z := Z.quot (Qnum x) (Z.pos (Qden x)).

(** [def create_event_agent(event_info)]; [t] is the reading of
    [time.time()] the call makes.  The entries of [event_info] come last
    in the dictionary display, so they win over the two before them. *)
Definition create_event_agent (t : Q) (event_info : gmap string value)
  : gmap string value :=
  event_info ∪
  <[ "status" := VStr "created" ]>
    (<[ "event_id" := VStr ("evt_" +:+ Str.of_int (int_of_float t)) ]> ∅).

(** ** ReplyGenerator *)

(** [email.sender.split('@')[0]] *)
Definition local_part (email : Email) : string :=
  Str.split_head "@" (sender email).

Definition greeting (email : Email) : string :=
  "Hi " +:+ local_part email +:+ "," +:+ Str.LF +:+ Str.LF.

Definition signature : string := Str.LF +:+ Str.LF +:+ closing.

(** [def reply_generator_agent(email, plan, context)] *)
Definition reply_generator_agent (email : Email) (plan : Plan)
    (context : gmap string value) : result string :=
  let intent := intent plan in
  if String.eqb intent "meeting_request" then
    let dt := get context "datetime" in
    let* dt_text :=
      if truthy dt then
        match dt with
        | VDatetime d => Return (strftime d)
        | _ => Raise AttributeError
        end
      else Return "a time" in
    Return (greeting email +:+
            "Thanks — that works for me. I've scheduled the meeting for "
            +:+ dt_text +:+ "." +:+ signature)
  else if String.eqb intent "info_request" then
    Return (greeting email +:+
            "Thanks for reaching out. I will gather the information and send it shortly."
            +:+ signature)
  else if String.eqb intent "acknowledgement" then
    Return (greeting email +:+ "Thanks for the update — noted." +:+ signature)
  else
    Return (greeting email +:+
            "Thanks for your message. I'll get back to you soon."
            +:+ signature).

(** ** Orchestrator *)

(** The clocks of a run: the [n]-th reading the program makes of either
    clock finds [wall n] on [datetime.now()] and [epoch n] on
    [time.time()]. *)
Record clock := mkClock {
  wall : nat -> datetime;
  epoch : nat -> Q
}.

(** The objects [action_executor] mutates, and the number of clock
    readings made so far. *)
Record exec_state := mkState {
  st_context : gmap string value;
  st_actions : gmap string value;
  st_tick : nat
}.

(** One turn of the loop [for step in plan.get("steps", [])]. *)
Definition exec_step (clk : clock) (email : Email) (st : exec_state)
    (step : string) : result exec_state :=
  if String.eqb step "extract_datetime" then
    let* dt := extract_datetime_agent (wall clk (st_tick st)) email in
    Return {| st_context := dt ∪ st_context st;
              st_actions := <[ "extract_datetime" := VDict dt ]> (st_actions st);
              st_tick := S (st_tick st) |}
  else if String.eqb step "create_event" then
    let event :=
      create_event_agent (epoch clk (st_tick st))
        (<[ "datetime" := get (st_context st) "datetime" ]>
           (<[ "summary" := VStr ("Meeting with " +:+ sender email) ]> ∅)) in
    Return {| st_context := st_context st;
              st_actions := <[ "create_event" := VDict event ]> (st_actions st);
              st_tick := S (st_tick st) |}
  else if Str.startswith "draft" step || String.eqb step "find_answer" then
    Return st
  else Return st.

Fixpoint exec_steps (clk : clock) (email : Email) (st : exec_state)
    (l : list string) : result exec_state :=
  match l with
  | [] => Return st
  | step :: l' =>
      let* st' := exec_step clk email st step in
      exec_steps clk email st' l'
  end.

(** [def action_executor(plan, email, context)]: the state it ends in
    holds the returned [actions] and the [context] of the caller as the
    call leaves it. *)
Definition action_executor (clk : clock) (n : nat) (plan : Plan)
    (email : Email) (context : gmap string value) : result exec_state :=
  let actions : gmap string value := ∅ in
  let* st := exec_steps clk email (mkState context actions n) (steps plan) in
  let* reply := reply_generator_agent email plan (st_context st) in
  let reply := qa_agent reply in
  let actions := <[ "reply" := VStr reply ]> (st_actions st) in
  let actions := <[ "sent" := VBool true ]> actions in
  Return {| st_context := st_context st; st_actions := actions;
            st_tick := st_tick st |}.

(** One message through the pipeline, as the demonstration loop and the
    [/process] endpoint do it: plan, fresh context, execute. *)
Definition process (clk : clock) (n : nat) (email : Email)
  : Plan * result exec_state :=
  let plan := planner_agent email in
  let context : gmap string value := ∅ in
  (plan, action_executor clk n plan email context).

(** One entry of [results]:
    [{"email_id": email.id, "plan": plan, "actions": actions}]. *)
Record Outcome := mkOutcome {
  email_id : Z;
  out_plan : Plan;
  out_actions : gmap string value
}.

(** The loop [for email in mock_inbox] that fills [results], over any
    inbox: every message gets its plan and a fresh context; an exception
    in one message ends the run.  [n] clock readings were made before. *)
Fixpoint run_inbox (clk : clock) (n : nat) (inbox : list Email)
  : result (list Outcome) :=
  match inbox with
  | [] => Return []
  | email :: rest =>
      let plan := planner_agent email in
      let context : gmap string value := ∅ in
      let* st := action_executor clk n plan email context in
      let* results := run_inbox clk (st_tick st) rest in
      Return ({| email_id := id email; out_plan := plan;
                 out_actions := st_actions st |} :: results)
  end.

(** ** Definitions used to state the properties *)

(** [w] stands in [s] between some [pre] and some [post]. *)
Definition occurs (w s : string) : Prop :=
  exists pre post, s = pre +:+ w +:+ post.

(** Some word of [ws] occurs in [s]. *)
Definition has_word (ws : list string) (s : string) : Prop :=
  exists w, In w ws /\ occurs w s.

(** The closed set of intents of the specification, and their names in
    the program. *)
Inductive Intent := meeting_request | info_request | acknowledgement | general.

Definition intent_name (i : Intent) : string :=
  match i with
  | meeting_request => "meeting_request"
  | info_request => "info_request"
  | acknowledgement => "acknowledgement"
  | general => "general"
  end.

(** The table of section 4.2 of the specification. *)
Definition plan_table (i : Intent) : list string :=
  match i with
  | meeting_request => ["extract_datetime"; "create_event"; "draft_reply"]
  | info_request => ["find_answer"; "draft_reply"]
  | acknowledgement => ["draft_ack"]
  | general => ["draft_general_reply"]
  end.

(** What the classifier reads: subject, a space, body, in lower case. *)
Definition text_of (email : Email) : string :=
  Str.lower (subject email +:+ " " +:+ body email).

Definition epoch_day : datetime := mkDatetime 2025 1 1 9 30 0 0.

(** The three messages of [mock_inbox], and one that no rule matches. *)
Definition alice : Email :=
  mkEmail 1 "alice@example.com" "Meeting?"
    "Hi, can we meet tomorrow at 4 PM to discuss the dataset?" epoch_day.
Definition bob : Email :=
  mkEmail 2 "bob@example.com" "Request: docs"
    "Could you send the latest report please?" epoch_day.
Definition carol : Email :=
  mkEmail 3 "carol@example.com" "Thanks" "Thanks for the update!" epoch_day.
Definition dave : Email :=
  mkEmail 4 "dave@example.com" "Lunch" "The soup was good." epoch_day.

(** The word "radically" holds "call" between an "i" and a "y". *)
Definition erin : Email :=
  mkEmail 5 "erin@example.com" "Notes" "It changed radically." epoch_day.

(** [date.toordinal]: the number of the day, 0001-01-01 being day 1. *)
Definition days_before_year (y : Z) : Z :=
  let y1 := y - 1 in y1 * 365 + y1 / 4 - y1 / 100 + y1 / 400.

Definition days_before_month (y m : Z) : Z :=
  fold_right Z.add 0
    (map (fun k => days_in_month y (Z.of_nat k)) (seq 1 (Z.to_nat m - 1))).

Definition toordinal (d : datetime) : Z :=
  days_before_year (year d) + days_before_month (year d) (month d) + day d.

(** The last day a [datetime] can hold. *)
Definition last_day (d : datetime) : Prop :=
  year d = 9999 /\ month d = 12 /\ day d = 31.

Definition same_time (d d' : datetime) : Prop :=
  hour d' = hour d /\ minute d' = minute d /\ second d' = second d /\
  microsecond d' = microsecond d.

Definition last_morning : datetime := mkDatetime 9999 12 31 10 0 0 0.

Definition frank : Email :=
  mkEmail 6 "frank@example.com" "Party" "See you tomorrow!" epoch_day.

(** The [event_info] the executor passes for a message of [alice] before
    any time was extracted. *)
Definition alice_event_info : gmap string value :=
  <[ "datetime" := VNone ]>
    (<[ "summary" := VStr "Meeting with alice@example.com" ]> ∅).

(** The context holds, under [datetime], nothing, [None] or a date. *)
Definition datetime_slot_typed (context : gmap string value) : Prop :=
  context !! "datetime" = None \/ context !! "datetime" = Some VNone \/
  exists d, context !! "datetime" = Some (VDatetime d).

(** The line of a reply between greeting and closing. *)
Definition reply_line (intent : string) (dt : value) : string :=
  if String.eqb intent "meeting_request" then
    "Thanks — that works for me. I've scheduled the meeting for " +:+
    match dt with VDatetime d => strftime d | _ => "a time" end +:+ "."
  else if String.eqb intent "info_request" then
    "Thanks for reaching out. I will gather the information and send it shortly."
  else if String.eqb intent "acknowledgement" then
    "Thanks for the update — noted."
  else "Thanks for your message. I'll get back to you soon.".

Definition meeting_steps : list string :=
  ["extract_datetime"; "create_event"; "draft_reply"].

Definition demo_clock : clock :=
  mkClock (fun _ => epoch_day) (fun _ => 1700000000 # 1).

Definition last_day_clock : clock :=
  mkClock (fun _ => last_morning) (fun _ => 253402250400 # 1).

Definition grace : Email :=
  mkEmail 7 "grace@example.com" "New year" "Can we meet tomorrow?" epoch_day.

Fixpoint all_chars (P : ascii -> bool) (s : string) : bool :=
  match s with
  | EmptyString => true
  | String c r => P c && all_chars P r
  end.

(** A character that is no line boundary. *)
Definition inline (c : ascii) : bool := negb (Str.islinebreak c).

(** The line of a meeting reply that names the date. *)
Definition meeting_line (d : datetime) : string :=
  "Thanks — that works for me. I've scheduled the meeting for " +:+
  strftime d +:+ ".".

(** The text [qa_agent] holds in [txt] before it looks for the closing:
    the non-blank lines, stripped, one per line. *)
Definition tidy (text : string) : string :=
  Str.join Str.LF
    (map Str.strip
       (List.filter (fun line => negb (Str.is_empty (Str.strip line)))
                    (Str.splitlines text))).

(** A line as [tidy] leaves it: not empty, no line boundary in it, and
    nothing for [strip] to take away. *)
Definition tidy_line (l : string) : Prop :=
  l <> "" /\ all_chars inline l = true /\ Str.strip l = l.

(** The steps the executor acts on; it passes over every other name. *)
Definition executable (step : string) : bool :=
  String.eqb step "extract_datetime" || String.eqb step "create_event".

(** The lower-cased body has none of the cues of the extractor. *)
Definition no_cue (text : string) : Prop :=
  ~ occurs "tomorrow" text /\ ~ occurs "today" text /\
  ~ occurs "4 pm" text /\ ~ occurs "4pm" text.

(** A meeting request for the day it is read. *)
Definition nina : Email :=
  mkEmail 15 "nina@example.com" "Last day" "Can we meet today?" epoch_day.

(** The message of the first end-to-end scenario. *)
Definition scenario_one : Email :=
  mkEmail 1 "alice@example.com" "Meeting?"
    "can we meet tomorrow at 4 PM to discuss the dataset?" epoch_day.

(** * Properties *)


(** ** Strings *)

Section StringFacts.

#[local] Arguments String.append !s1 s2 : simpl nomatch.

Lemma app_assoc_str (a b c : string) : (a +:+ b) +:+ c = a +:+ b +:+ c.
Proof. induction a as [|x a IH]; simpl; [reflexivity | now rewrite IH]. Qed.

Lemma app_empty_r (a : string) : a +:+ "" = a.
Proof. induction a as [|x a IH]; simpl; [reflexivity | now rewrite IH]. Qed.

Lemma prefix_app (w s : string) :
  String.prefix w s = true <-> exists post, s = w +:+ post.
Proof.
  revert s; induction w as [|x w IH]; intros [|y s]; simpl.
  - split; [intros _; now exists "" | reflexivity].
  - split; [intros _; now exists (String y s) | reflexivity].
  - split; [discriminate | intros [p Hp]; discriminate].
  - destruct (Ascii.ascii_dec x y) as [->|Hne].
    + rewrite IH. split; intros [p Hp]; exists p; congruence.
    + split; [discriminate | intros [p Hp]; congruence].
Qed.

Lemma contains_occurs (w s : string) :
  Str.contains w s = true <-> occurs w s.
Proof.
  induction s as [|c s IH].
  - cbn [Str.contains]. rewrite orb_false_r, prefix_app. split.
    + intros [p Hp]. now exists "", p.
    + intros [[|x pre] [post H]]; [now exists post |]. discriminate.
  - cbn [Str.contains]. rewrite orb_true_iff, prefix_app, IH. split.
    + intros [[p Hp] | [pre [post H]]].
      * now exists "", p.
      * exists (String c pre), post. simpl. now rewrite H.
    + intros [[|x pre] [post H]].
      * left. now exists post.
      * right. simpl in H. injection H as _ H. now exists pre, post.
Qed.

Lemma any_in_has_word (ws : list string) (s : string) :
  any_in ws s = true <-> has_word ws s.
Proof.
  unfold any_in, has_word. rewrite existsb_exists.
  split; intros [w [Hw H]]; exists w; split; auto; now apply contains_occurs.
Qed.

Lemma any_in_false (ws : list string) (s : string) :
  any_in ws s = false <-> ~ has_word ws s.
Proof.
  rewrite <- any_in_has_word. destruct (any_in ws s); split; congruence.
Qed.

Lemma lower_app (a b : string) :
  Str.lower (a +:+ b) = Str.lower a +:+ Str.lower b.
Proof. induction a as [|x a IH]; simpl; [reflexivity | now rewrite IH]. Qed.

Lemma occurs_app_l (w a b : string) : occurs w a -> occurs w (a +:+ b).
Proof.
  intros [pre [post ->]]. exists pre, (post +:+ b).
  now rewrite !app_assoc_str.
Qed.

Lemma occurs_app_r (w a b : string) : occurs w b -> occurs w (a +:+ b).
Proof.
  intros [pre [post ->]]. exists (a +:+ pre), post.
  now rewrite !app_assoc_str.
Qed.

End StringFacts.

(** ** IntentClassifier *)

Lemma intent_agent_cases (email : Email) :
  intent_agent email =
    if any_in meeting_words (text_of email) then "meeting_request"
    else if any_in info_words (text_of email) then "info_request"
    else if any_in ack_words (text_of email) then "acknowledgement"
    else "general".
Proof. reflexivity. Qed.

(** C3. The classifier is a total function of the message that obeys the
    first-match precedence on the lower-cased subject and body: a meeting
    word anywhere gives meeting_request whatever else is there; failing
    that an info word gives info_request; failing that an acknowledgement
    word gives acknowledgement; failing all three, general.  It has no
    fifth answer. *)
Theorem intent_agent_precedence (email : Email) :
  let text := Str.lower (subject email +:+ " " +:+ body email) in
  let meeting := has_word ["meet"; "meeting"; "schedule"; "call"] text in
  let info := has_word ["please"; "could you"; "can you"; "send"] text in
  let ack := has_word ["thanks"; "thank you"; "acknowledge"] text in
  (meeting -> intent_agent email = "meeting_request") /\
  (~ meeting -> info -> intent_agent email = "info_request") /\
  (~ meeting -> ~ info -> ack -> intent_agent email = "acknowledgement") /\
  (~ meeting -> ~ info -> ~ ack -> intent_agent email = "general") /\
  (exists i, intent_agent email = intent_name i).
Proof.
  intros text meeting info ack.
  rewrite intent_agent_cases. fold (text_of email) in text.
  assert (Hm := any_in_has_word meeting_words text).
  assert (Hi := any_in_has_word info_words text).
  assert (Ha := any_in_has_word ack_words text).
  fold meeting in Hm. fold info in Hi. fold ack in Ha. subst text.
  destruct (any_in meeting_words (text_of email)).
  { repeat split; try tauto. now exists meeting_request. }
  destruct (any_in info_words (text_of email)).
  { repeat split; try tauto; try (intros; exfalso; intuition congruence).
    now exists info_request. }
  destruct (any_in ack_words (text_of email)).
  { repeat split; try tauto; try (intros; exfalso; intuition congruence).
    now exists acknowledgement. }
  repeat split; try tauto; try (intros; exfalso; intuition congruence).
  now exists general.
Qed.

Ltac word_present := apply any_in_has_word; vm_compute; reflexivity.
Ltac word_absent := apply any_in_false; vm_compute; reflexivity.

Lemma intent_agent_precedence_witness :
  intent_agent alice = "meeting_request" /\
  intent_agent bob = "info_request" /\
  intent_agent carol = "acknowledgement" /\
  intent_agent dave = "general".
Proof.
  split; [| split; [| split]].
  - apply (proj1 (intent_agent_precedence alice)). word_present.
  - apply (proj1 (proj2 (intent_agent_precedence bob)));
      [word_absent | word_present].
  - apply (proj1 (proj2 (proj2 (intent_agent_precedence carol))));
      [word_absent | word_absent | word_present].
  - apply (proj1 (proj2 (proj2 (proj2 (intent_agent_precedence dave)))));
      word_absent.
Defined.

(** C9. Keywords are matched as substrings, not as words: whatever
    characters [a] and [b] stand right before and right after a keyword
    in the lower-cased text, letters included, the keyword counts.  A
    meeting word inside a longer word gives meeting_request; an info or
    acknowledgement word inside a longer word gives its intent when no
    word of an earlier category occurs. *)
Theorem keyword_inside_longer_word (email : Email) (w pre post : string)
    (a b : ascii) :
  let text := Str.lower (subject email +:+ " " +:+ body email) in
  text = pre +:+ String a w +:+ String b post ->
  (In w ["meet"; "meeting"; "schedule"; "call"] ->
   intent_agent email = "meeting_request") /\
  (In w ["please"; "could you"; "can you"; "send"] ->
   ~ has_word ["meet"; "meeting"; "schedule"; "call"] text ->
   intent_agent email = "info_request") /\
  (In w ["thanks"; "thank you"; "acknowledge"] ->
   ~ has_word ["meet"; "meeting"; "schedule"; "call"] text ->
   ~ has_word ["please"; "could you"; "can you"; "send"] text ->
   intent_agent email = "acknowledgement").
Proof.
  intros text Htext.
  assert (Hocc : occurs w text).
  { exists (pre +:+ String a ""), (String b post). rewrite Htext.
    rewrite app_assoc_str. reflexivity. }
  rewrite intent_agent_cases. fold (text_of email) in text. fold text.
  repeat split.
  - intros Hw.
    assert (E : any_in meeting_words text = true)
      by (apply any_in_has_word; now exists w).
    now rewrite E.
  - intros Hw Hm. apply any_in_false in Hm.
    assert (E : any_in info_words text = true)
      by (apply any_in_has_word; now exists w).
    unfold meeting_words in *. now rewrite Hm, E.
  - intros Hw Hm Hi. apply any_in_false in Hm. apply any_in_false in Hi.
    assert (E : any_in ack_words text = true)
      by (apply any_in_has_word; now exists w).
    unfold meeting_words, info_words in *. now rewrite Hm, Hi, E.
Qed.

Lemma keyword_inside_longer_word_witness :
  intent_agent erin = "meeting_request" /\
  Str.lower (subject erin +:+ " " +:+ body erin)
  = "notes it changed rad" +:+ String "i" "call" +:+ String "y" ".".
Proof.
  split; [| reflexivity].
  apply (proj1 (keyword_inside_longer_word erin "call"
                  "notes it changed rad" "." "i" "y" eq_refl)).
  right; right; right; left; reflexivity.
Defined.

(** ** Planner *)

(** C6. The planner is a total lookup in the table: every message gets
    one of the four intents and exactly the steps of that intent's row;
    every row is reached by some message; and two plans with the same
    intent have the same steps. *)
Theorem planner_agent_table :
  (forall email, exists i,
     intent_agent email = intent_name i /\
     planner_agent email = {| intent := intent_name i; steps := plan_table i |}) /\
  (forall i, exists email, intent (planner_agent email) = intent_name i) /\
  (forall e1 e2,
     intent (planner_agent e1) = intent (planner_agent e2) ->
     steps (planner_agent e1) = steps (planner_agent e2)).
Proof.
  assert (H : forall email, exists i,
     intent_agent email = intent_name i /\
     planner_agent email = {| intent := intent_name i; steps := plan_table i |}).
  { intros email.
    assert (Hi : exists i, intent_agent email = intent_name i).
    { rewrite intent_agent_cases.
      destruct (any_in meeting_words _); [now exists meeting_request |].
      destruct (any_in info_words _); [now exists info_request |].
      destruct (any_in ack_words _);
        [now exists acknowledgement | now exists general]. }
    destruct Hi as [i Hi]. exists i. split; [assumption |].
    unfold planner_agent. rewrite Hi. now destruct i. }
  split; [exact H | split].
  - intros [| | |];
      [exists alice | exists bob | exists carol | exists dave]; reflexivity.
  - intros e1 e2.
    destruct (H e1) as [i1 [_ ->]], (H e2) as [i2 [_ ->]]. simpl.
    destruct i1, i2; simpl; intros E; try discriminate E; reflexivity.
Qed.

Lemma planner_agent_table_witness :
  steps (planner_agent alice) = steps (planner_agent erin).
Proof.
  apply (proj2 (proj2 planner_agent_table) alice erin). reflexivity.
Defined.

(** ** QualityAssurance *)

(** C1. A second pass of [qa_agent] changes what the first pass made of
    the text "hello": the first pass appends the closing after a blank
    line, the second pass takes that blank line away. *)
Theorem qa_agent_second_pass :
  qa_agent "hello"
  = "hello" +:+ Str.LF +:+ Str.LF +:+ "Best," +:+ Str.LF +:+ "SmartMailr" /\
  qa_agent (qa_agent "hello")
  = "hello" +:+ Str.LF +:+ "Best," +:+ Str.LF +:+ "SmartMailr" /\
  qa_agent (qa_agent "hello") <> qa_agent "hello".
Proof.
  split; [reflexivity | split; [reflexivity |]].
  vm_compute. discriminate.
Qed.

(** ** Dates *)

Lemma days_before_next_year (y : Z) :
  1 <= y ->
  days_before_year (y + 1) = days_before_year y + 365 + (if is_leap y then 1 else 0).
Proof.
  intros Hy. unfold days_before_year, is_leap. cbv zeta.
  replace (y + 1 - 1) with y by lia.
  destruct (Z.eqb_spec (y mod 4) 0) as [H4|H4];
  destruct (Z.eqb_spec (y mod 100) 0) as [H100|H100];
  destruct (Z.eqb_spec (y mod 400) 0) as [H400|H400]; simpl;
  Z.div_mod_to_equations; lia.
Qed.

Lemma month_cases (m : Z) :
  1 <= m <= 12 ->
  m = 1 \/ m = 2 \/ m = 3 \/ m = 4 \/ m = 5 \/ m = 6 \/
  m = 7 \/ m = 8 \/ m = 9 \/ m = 10 \/ m = 11 \/ m = 12.
Proof. lia. Qed.

Lemma days_before_next_month (y m : Z) :
  1 <= m < 12 ->
  days_before_month y (m + 1) = days_before_month y m + days_in_month y m.
Proof.
  intros Hm.
  destruct (month_cases m ltac:(lia)) as [E|[E|[E|[E|[E|[E|[E|[E|[E|[E|[E|E]]]]]]]]]]];
    subst m; try lia; unfold days_before_month, days_in_month;
    destruct (is_leap y); reflexivity.
Qed.

Lemma days_before_december (y : Z) :
  days_before_month y 12 + 31 = 365 + (if is_leap y then 1 else 0).
Proof.
  unfold days_before_month, days_in_month. destruct (is_leap y); reflexivity.
Qed.

Lemma days_in_month_pos (y m : Z) : 28 <= days_in_month y m <= 31.
Proof.
  unfold days_in_month.
  destruct (m =? 2); [destruct (is_leap y); lia |].
  destruct ((m =? 4) || (m =? 6) || (m =? 9) || (m =? 11)); lia.
Qed.

(** On a valid date before the last, [plus_one_day] returns the valid
    date of the next day, at the same time of day. *)
Lemma plus_one_day_next (d : datetime) :
  valid_datetime d -> ~ last_day d ->
  exists d', plus_one_day d = Return d' /\ valid_datetime d' /\
             toordinal d' = toordinal d + 1 /\ same_time d d'.
Proof.
  intros (Hy & Hm & Hd & Hh & Hmi & Hs & Hus) Hlast.
  unfold plus_one_day, MINYEAR, MAXYEAR in *.
  destruct (Z.ltb_spec (day d) (days_in_month (year d) (month d))) as [H1|H1].
  { eexists; split; [reflexivity |].
    unfold valid_datetime, toordinal, same_time, MINYEAR, MAXYEAR; simpl.
    repeat split; lia. }
  destruct (Z.ltb_spec (month d) 12) as [H2|H2].
  { eexists; split; [reflexivity |].
    unfold valid_datetime, toordinal, same_time, MINYEAR, MAXYEAR; simpl.
    pose proof (days_in_month_pos (year d) (month d + 1)).
    rewrite days_before_next_month by lia.
    repeat split; lia. }
  assert (Em : month d = 12) by lia.
  assert (Ed : day d = 31).
  { rewrite Em in *. unfold days_in_month in *. simpl in *. lia. }
  destruct (Z.ltb_spec (year d) 9999) as [H3|H3].
  { eexists; split; [reflexivity |].
    unfold valid_datetime, toordinal, same_time, MINYEAR, MAXYEAR; simpl.
    rewrite days_before_next_year by lia.
    pose proof (days_before_december (year d)).
    rewrite Em, Ed.
    assert (days_in_month (year d + 1) 1 = 31) by reflexivity.
    assert (days_before_month (year d + 1) 1 = 0) by reflexivity.
    repeat split; lia. }
  exfalso. apply Hlast. unfold last_day. lia.
Qed.

Lemma plus_one_day_last (d : datetime) :
  last_day d -> plus_one_day d = Raise OverflowError.
Proof.
  intros (Hy & Hm & Hd). unfold plus_one_day, MAXYEAR.
  rewrite Hy, Hm, Hd. reflexivity.
Qed.

(** ** DateTimeExtractor *)

Lemma at_16_00_valid (d : datetime) :
  valid_datetime d -> valid_datetime (at_16_00 d).
Proof.
  unfold valid_datetime, at_16_00; simpl. intuition lia.
Qed.

Lemma epoch_day_valid : valid_datetime epoch_day /\ ~ last_day epoch_day.
Proof.
  split.
  - unfold valid_datetime, epoch_day, MINYEAR, MAXYEAR; simpl.
    change (days_in_month 2025 1) with 31. lia.
  - intros (H & _). discriminate H.
Defined.

Lemma last_morning_valid : valid_datetime last_morning.
Proof.
  unfold valid_datetime, last_morning, MINYEAR, MAXYEAR; simpl.
  change (days_in_month 9999 12) with 31. lia.
Qed.

(** On 9999-12-31 a body with "tomorrow" makes the extractor raise. *)
Lemma extract_datetime_agent_overflow :
  valid_datetime last_morning /\
  extract_datetime_agent last_morning frank = Raise OverflowError.
Proof.
  split; [exact last_morning_valid | reflexivity].
Qed.

(** ** EventCreator *)

Lemma of_int_inj (n m : Z) : Str.of_int n = Str.of_int m -> n = m.
Proof.
  unfold Str.of_int. intros H.
  assert (E : NilEmpty.int_of_string (NilEmpty.string_of_int (Z.to_int n))
            = NilEmpty.int_of_string (NilEmpty.string_of_int (Z.to_int m)))
    by now rewrite H.
  rewrite !NilEmpty.isi in E. injection E as E.
  now apply DecimalZ.to_int_inj.
Qed.

Lemma create_event_agent_event_id (t : Q) (info : gmap string value) :
  info !! "event_id" = None ->
  create_event_agent t info !! "event_id"
  = Some (VStr ("evt_" +:+ Str.of_int (int_of_float t))).
Proof.
  intros H. unfold create_event_agent.
  rewrite lookup_union_r by exact H.
  rewrite lookup_insert_ne by discriminate.
  apply lookup_insert_eq.
Qed.

(** C2. The [event_id] of an event record is "evt_" followed by the whole
    seconds of the [time.time()] reading of the call, so two calls return
    distinct [event_id]s exactly when their readings lie in different
    whole seconds. *)
Theorem event_id_distinct_iff (t1 t2 : Q) (info1 info2 : gmap string value) :
  info1 !! "event_id" = None -> info2 !! "event_id" = None ->
  create_event_agent t1 info1 !! "event_id"
  = Some (VStr ("evt_" +:+ Str.of_int (int_of_float t1))) /\
  create_event_agent t2 info2 !! "event_id"
  = Some (VStr ("evt_" +:+ Str.of_int (int_of_float t2))) /\
  (create_event_agent t1 info1 !! "event_id"
   <> create_event_agent t2 info2 !! "event_id"
   <-> int_of_float t1 <> int_of_float t2).
Proof.
  intros H1 H2.
  rewrite (create_event_agent_event_id t1 info1 H1).
  rewrite (create_event_agent_event_id t2 info2 H2).
  split; [reflexivity | split; [reflexivity |]].
  split; intros Hne E; apply Hne.
  - now rewrite E.
  - injection E as E. now apply of_int_inj.
Qed.

Lemma event_id_distinct_iff_witness :
  create_event_agent (1700000000 # 1) alice_event_info !! "event_id"
  <> create_event_agent (1700000001 # 1) alice_event_info !! "event_id".
Proof.
  apply (proj2 (proj2 (event_id_distinct_iff (1700000000 # 1) (1700000001 # 1)
                         alice_event_info alice_event_info
                         eq_refl eq_refl))).
  vm_compute. discriminate.
Defined.

(** Two calls a half second apart, within the same second, return the
    same [event_id]. *)
Lemma event_id_collision :
  (6800000001 # 4 < 6800000003 # 4)%Q /\
  create_event_agent (6800000001 # 4) alice_event_info !! "event_id"
  = Some (VStr "evt_1700000000") /\
  create_event_agent (6800000003 # 4) alice_event_info !! "event_id"
  = Some (VStr "evt_1700000000").
Proof.
  split; [reflexivity | split; vm_compute; reflexivity].
Qed.

(** ** ReplyGenerator *)

Lemma split_head_before (sep : ascii) (l r : string) :
  ~ occurs (String sep "") l ->
  Str.split_head sep (l +:+ String sep r) = l.
Proof.
  induction l as [|c l IH]; intros Hno.
  - simpl. now rewrite Ascii.eqb_refl.
  - change (String c l +:+ String sep r) with (String c (l +:+ String sep r)).
    cbn [Str.split_head].
    destruct (Ascii.eqb_spec c sep) as [->|Hne].
    + exfalso. apply Hno. now exists "", l.
    + f_equal. apply IH. intros [pre [post ->]]. apply Hno.
      now exists (String c pre), post.
Qed.

Lemma reply_generator_agent_shape (email : Email) (plan : Plan)
    (context : gmap string value) :
  datetime_slot_typed context ->
  reply_generator_agent email plan context
  = Return ("Hi " +:+ Str.split_head "@" (sender email) +:+ "," +:+ Str.LF +:+
            Str.LF +:+ reply_line (intent plan) (get context "datetime") +:+
            Str.LF +:+ Str.LF +:+ "Best," +:+ Str.LF +:+ "SmartMailr").
Proof.
  intros Hty. unfold reply_generator_agent, reply_line.
  destruct (String.eqb (intent plan) "meeting_request").
  - assert (E : (if truthy (get context "datetime")
                 then match get context "datetime" with
                      | VDatetime d => Return (strftime d)
                      | _ => Raise AttributeError
                      end
                 else Return "a time")
                = Return (match get context "datetime" with
                          | VDatetime d => strftime d
                          | _ => "a time"
                          end)).
    { unfold get. destruct Hty as [-> | [-> | [d ->]]]; reflexivity. }
    rewrite E. unfold bind, greeting, local_part, signature, closing.
    rewrite !app_assoc_str. reflexivity.
  - destruct (String.eqb (intent plan) "info_request");
      [| destruct (String.eqb (intent plan) "acknowledgement")];
      unfold greeting, local_part, signature, closing;
      rewrite !app_assoc_str; reflexivity.
Qed.

(** C7. The reply is a function of the intent, the [datetime] slot of the
    context and the sender alone.  It opens with "Hi ", the part of the
    sender's address before the first "@" and a comma, and ends with the
    closing after a blank line.  For meeting_request with the slot empty
    or [None], the line in between says "a time" where the date would
    stand. *)
Theorem reply_generator_agent_template (email : Email) (plan : Plan)
    (context : gmap string value) :
  datetime_slot_typed context ->
  (forall email' plan' context',
     sender email' = sender email -> intent plan' = intent plan ->
     context' !! "datetime" = context !! "datetime" ->
     reply_generator_agent email' plan' context'
     = reply_generator_agent email plan context) /\
  (forall l r, sender email = l +:+ "@" +:+ r -> ~ occurs "@" l ->
     Str.split_head "@" (sender email) = l) /\
  exists middle,
    reply_generator_agent email plan context
    = Return ("Hi " +:+ Str.split_head "@" (sender email) +:+ "," +:+
              Str.LF +:+ Str.LF +:+ middle +:+
              Str.LF +:+ Str.LF +:+ "Best," +:+ Str.LF +:+ "SmartMailr") /\
    (intent plan = "meeting_request" ->
     context !! "datetime" = None \/ context !! "datetime" = Some VNone ->
     middle = "Thanks — that works for me. I've scheduled the meeting for a time."
     /\ occurs "a time" middle) /\
    (forall d, intent plan = "meeting_request" ->
     context !! "datetime" = Some (VDatetime d) ->
     middle = "Thanks — that works for me. I've scheduled the meeting for "
              +:+ strftime d +:+ ".").
Proof.
  intros Hty. split; [| split].
  - intros email' plan' context' Hs Hi Hc.
    unfold reply_generator_agent, greeting, local_part, get.
    now rewrite Hs, Hi, Hc.
  - intros l r -> Hno. now apply split_head_before.
  - exists (reply_line (intent plan) (get context "datetime")).
    split; [now apply reply_generator_agent_shape | split].
    + intros -> Hnone. unfold reply_line, get.
      change (String.eqb "meeting_request" "meeting_request") with true.
      cbv iota.
      assert (E : default VNone (context !! "datetime") = VNone)
        by (destruct Hnone as [-> | ->]; reflexivity).
      rewrite E. split; [reflexivity |].
      now exists "Thanks — that works for me. I've scheduled the meeting for ", ".".
    + intros d -> Hd. unfold reply_line, get. rewrite Hd. reflexivity.
Qed.

Lemma reply_generator_agent_template_witness :
  reply_generator_agent alice (planner_agent alice) ∅
  = Return ("Hi alice," +:+ Str.LF +:+ Str.LF +:+
            "Thanks — that works for me. I've scheduled the meeting for a time."
            +:+ Str.LF +:+ Str.LF +:+ "Best," +:+ Str.LF +:+ "SmartMailr").
Proof.
  assert (Hty : datetime_slot_typed (∅ : gmap string value))
    by (left; reflexivity).
  destruct (reply_generator_agent_template alice (planner_agent alice) ∅ Hty)
    as (_ & _ & middle & Hr & Hm & _).
  destruct (Hm eq_refl (or_introl eq_refl)) as [-> _].
  exact Hr.
Defined.

(** ** Orchestrator *)

Lemma planner_agent_lookup (email : Email) :
  exists i, intent_agent email = intent_name i /\
            planner_agent email
            = {| intent := intent_name i; steps := plan_table i |}.
Proof.
  assert (Hi : exists i, intent_agent email = intent_name i).
  { rewrite intent_agent_cases.
    destruct (any_in meeting_words _); [now exists meeting_request |].
    destruct (any_in info_words _); [now exists info_request |].
    destruct (any_in ack_words _);
      [now exists acknowledgement | now exists general]. }
  destruct Hi as [i Hi]. exists i. split; [assumption |].
  unfold planner_agent. rewrite Hi. now destruct i.
Qed.

(** What the extractor returns has the one key [datetime], on [None] or
    on a date at 16:00. *)
Lemma extract_datetime_agent_shape (now : datetime) (email : Email)
    (dt : gmap string value) :
  extract_datetime_agent now email = Return dt ->
  exists v, dt = {[ "datetime" := v ]} /\
            (v = VNone \/ exists d, v = VDatetime (at_16_00 d)).
Proof.
  unfold extract_datetime_agent.
  destruct (Str.contains "tomorrow" _).
  { destruct (plus_one_day now) as [next|e]; simpl; intros [= <-].
    rewrite insert_singleton_eq. eauto. }
  destruct (Str.contains "today" _).
  { intros [= <-]. rewrite insert_singleton_eq. eauto. }
  destruct (Str.contains "4 pm" _ || Str.contains "4pm" _).
  { destruct (plus_one_day now) as [next|e]; simpl; intros [= <-].
    rewrite insert_singleton_eq. eauto. }
  intros [= <-]. eauto.
Qed.

Lemma extract_datetime_agent_total (now : datetime) (email : Email) :
  valid_datetime now -> ~ last_day now ->
  returns (extract_datetime_agent now email).
Proof.
  intros Hv Hl. destruct (plus_one_day_next now Hv Hl) as (next & Hn & _).
  unfold extract_datetime_agent, returns. rewrite Hn. simpl.
  destruct (Str.contains "tomorrow" _); [eauto |].
  destruct (Str.contains "today" _); [eauto |].
  destruct (Str.contains "4 pm" _ || Str.contains "4pm" _); eauto.
Qed.

Lemma exec_step_other (clk : clock) (email : Email) (st : exec_state)
    (step : string) :
  step <> "extract_datetime" -> step <> "create_event" ->
  exec_step clk email st step = Return st.
Proof.
  intros H1 H2. unfold exec_step.
  apply String.eqb_neq in H1. apply String.eqb_neq in H2.
  rewrite H1, H2. now destruct (_ || _).
Qed.

Lemma exec_step_create_event (clk : clock) (email : Email) (st : exec_state) :
  exec_step clk email st "create_event"
  = Return {| st_context := st_context st;
              st_actions :=
                <[ "create_event" :=
                     VDict (create_event_agent (epoch clk (st_tick st))
                              (<[ "datetime" := get (st_context st) "datetime" ]>
                                 (<[ "summary" := VStr ("Meeting with " +:+ sender email) ]> ∅))) ]>
                  (st_actions st);
              st_tick := S (st_tick st) |}.
Proof. reflexivity. Qed.

Lemma exec_step_extract_datetime (clk : clock) (email : Email)
    (st : exec_state) :
  exec_step clk email st "extract_datetime"
  = let* dt := extract_datetime_agent (wall clk (st_tick st)) email in
    Return {| st_context := dt ∪ st_context st;
              st_actions := <[ "extract_datetime" := VDict dt ]> (st_actions st);
              st_tick := S (st_tick st) |}.
Proof. reflexivity. Qed.

(** A step leaves every key of the context but [datetime] as it was, and
    a step other than extract_datetime leaves the whole context. *)
Lemma exec_step_frame (clk : clock) (email : Email) (st st' : exec_state)
    (step : string) :
  exec_step clk email st step = Return st' ->
  (forall k, k <> "datetime" -> st_context st' !! k = st_context st !! k) /\
  (step <> "extract_datetime" -> st_context st' = st_context st).
Proof.
  intros H.
  destruct (String.eqb_spec step "extract_datetime") as [->|H1].
  { rewrite exec_step_extract_datetime in H.
    destruct (extract_datetime_agent _ _) as [dt|e] eqn:Hx; [| discriminate].
    simpl in H. injection H as <-. simpl.
    destruct (extract_datetime_agent_shape _ _ _ Hx) as (v & -> & _).
    split; [| congruence].
    intros k Hk. rewrite lookup_union_r; [reflexivity |].
    apply lookup_singleton_ne. congruence. }
  destruct (String.eqb_spec step "create_event") as [->|H2].
  { rewrite exec_step_create_event in H. injection H as <-. simpl. auto. }
  rewrite exec_step_other in H by assumption. injection H as <-. auto.
Qed.

Lemma exec_steps_app (clk : clock) (email : Email) (l1 l2 : list string)
    (st : exec_state) :
  exec_steps clk email st (l1 ++ l2)
  = let* st1 := exec_steps clk email st l1 in exec_steps clk email st1 l2.
Proof.
  revert st; induction l1 as [|s l1 IH]; intros st; simpl; [reflexivity |].
  destruct (exec_step clk email st s) as [st1|e]; simpl; [apply IH | reflexivity].
Qed.

Lemma exec_steps_frame (clk : clock) (email : Email) (l : list string)
    (st st' : exec_state) :
  exec_steps clk email st l = Return st' ->
  forall k, k <> "datetime" -> st_context st' !! k = st_context st !! k.
Proof.
  revert st; induction l as [|s l IH]; intros st; simpl.
  - intros [= <-]. reflexivity.
  - destruct (exec_step clk email st s) as [st1|e] eqn:Hs; [| discriminate].
    simpl. intros H k Hk. rewrite (IH _ H k Hk).
    now apply (proj1 (exec_step_frame _ _ _ _ _ Hs)).
Qed.

(** Without an extract_datetime step the loop cannot raise and leaves the
    context as it found it. *)
Lemma exec_steps_no_extract (clk : clock) (email : Email) (l : list string)
    (st : exec_state) :
  ~ In "extract_datetime" l ->
  exists st', exec_steps clk email st l = Return st' /\
              st_context st' = st_context st.
Proof.
  revert st; induction l as [|s l IH]; intros st Hno; simpl.
  - eauto.
  - assert (Hs : s <> "extract_datetime") by (intros ->; apply Hno; now left).
    assert (Hl : ~ In "extract_datetime" l) by (intros ?; apply Hno; now right).
    assert (Hst : exists st1, exec_step clk email st s = Return st1 /\
                              st_context st1 = st_context st).
    { destruct (String.eqb_spec s "create_event") as [->|H2].
      - rewrite exec_step_create_event. eauto.
      - rewrite exec_step_other by assumption. eauto. }
    destruct Hst as (st1 & -> & E1). simpl.
    destruct (IH st1 Hl) as (st' & -> & E'). exists st'. split; congruence.
Qed.

Lemma action_executor_returns (clk : clock) (n : nat) (plan : Plan)
    (email : Email) (context : gmap string value) (st : exec_state) :
  exec_steps clk email (mkState context ∅ n) (steps plan) = Return st ->
  datetime_slot_typed (st_context st) ->
  exists r,
    reply_generator_agent email plan (st_context st) = Return r /\
    action_executor clk n plan email context
    = Return {| st_context := st_context st;
                st_actions := <[ "sent" := VBool true ]>
                                (<[ "reply" := VStr (qa_agent r) ]> (st_actions st));
                st_tick := st_tick st |}.
Proof.
  intros Hs Hty. unfold action_executor. rewrite Hs. simpl.
  rewrite (reply_generator_agent_shape email plan _ Hty).
  eexists. split; reflexivity.
Qed.

Lemma action_executor_context (clk : clock) (n : nat) (plan : Plan)
    (email : Email) (context : gmap string value) (st' : exec_state) :
  action_executor clk n plan email context = Return st' ->
  exists st, exec_steps clk email (mkState context ∅ n) (steps plan) = Return st /\
             st_context st' = st_context st.
Proof.
  unfold action_executor.
  destruct (exec_steps _ _ _ _) as [st|e]; [| discriminate]. simpl.
  destruct (reply_generator_agent _ _ _) as [r|e]; [| discriminate]. simpl.
  intros [= <-]. eauto.
Qed.

(** C10. The executor writes the context under the key [datetime] only:
    at every point of the loop, and when the call returns, every other
    key is as the caller left it.  A create_event step records its event
    in [actions] and leaves the context alone.  A plan without an
    extract_datetime step leaves the whole context alone at every point
    of the run, so a message with such a plan is processed to the end on
    the empty context. *)
Theorem context_written_under_datetime_only (clk : clock) (n : nat)
    (email : Email) (plan : Plan) (context : gmap string value) :
  (forall l1 l2 st1,
     steps plan = l1 ++ l2 ->
     exec_steps clk email (mkState context ∅ n) l1 = Return st1 ->
     forall k, k <> "datetime" -> st_context st1 !! k = context !! k) /\
  (forall st',
     action_executor clk n plan email context = Return st' ->
     forall k, k <> "datetime" -> st_context st' !! k = context !! k) /\
  (forall st, exists st1 event,
     exec_step clk email st "create_event" = Return st1 /\
     st_context st1 = st_context st /\
     st_actions st1 !! "create_event" = Some (VDict event) /\
     event !! "status" = Some (VStr "created")) /\
  (~ In "extract_datetime" (steps plan) ->
   (forall l1 l2,
      steps plan = l1 ++ l2 ->
      exists st1, exec_steps clk email (mkState context ∅ n) l1 = Return st1 /\
                  st_context st1 = context) /\
   (forall st',
      action_executor clk n plan email context = Return st' ->
      st_context st' = context)) /\
  (~ In "extract_datetime" (steps (planner_agent email)) ->
   exists st', snd (process clk n email) = Return st' /\ st_context st' = ∅).
Proof.
  split; [| split; [| split; [| split]]].
  - intros l1 l2 st1 _ H k Hk.
    now rewrite (exec_steps_frame _ _ _ _ _ H k Hk).
  - intros st' H k Hk.
    destruct (action_executor_context _ _ _ _ _ _ H) as (st & Hs & ->).
    now rewrite (exec_steps_frame _ _ _ _ _ Hs k Hk).
  - intros st. rewrite exec_step_create_event.
    eexists; eexists. split; [reflexivity |]. simpl.
    split; [reflexivity |]. split; [apply lookup_insert_eq |].
    unfold create_event_agent. rewrite lookup_union_r.
    + apply lookup_insert_eq.
    + rewrite !lookup_insert_ne by discriminate. apply lookup_empty.
  - intros Hno. split.
    + intros l1 l2 E.
      assert (H1 : ~ In "extract_datetime" l1).
      { intros Hin. apply Hno. rewrite E. apply in_or_app. now left. }
      destruct (exec_steps_no_extract clk email l1 (mkState context ∅ n) H1)
        as (st1 & Hs & Hc).
      exists st1. now split.
    + intros st' H.
      destruct (action_executor_context _ _ _ _ _ _ H) as (st & Hs & ->).
      destruct (exec_steps_no_extract clk email (steps plan)
                  (mkState context ∅ n) Hno) as (st1 & Hs1 & Hc).
      rewrite Hs in Hs1. injection Hs1 as <-. exact Hc.
  - intros Hno. unfold process. simpl.
    destruct (exec_steps_no_extract clk email (steps (planner_agent email))
                (mkState ∅ ∅ n) Hno) as (st1 & Hs1 & Hc).
    simpl in Hc.
    assert (Hty : datetime_slot_typed (st_context st1))
      by (left; rewrite Hc; apply lookup_empty).
    destruct (action_executor_returns _ _ _ _ _ _ Hs1 Hty) as (r & _ & ->).
    eexists. split; [reflexivity |]. exact Hc.
Qed.

Lemma context_written_under_datetime_only_witness :
  exists st', snd (process (mkClock (fun _ => epoch_day) (fun _ => 1700000000 # 1))
                     0 bob) = Return st' /\
              st_context st' = ∅.
Proof.
  apply (proj2 (proj2 (proj2 (proj2
           (context_written_under_datetime_only
              (mkClock (fun _ => epoch_day) (fun _ => 1700000000 # 1))
              0 bob (planner_agent bob) ∅))))).
  vm_compute. intros [H | [H | []]]; discriminate H.
Defined.

(** The loop over the steps of a meeting request, once the extractor
    has returned [dt]. *)
Lemma exec_steps_meeting (clk : clock) (n : nat) (email : Email)
    (dt : gmap string value) :
  extract_datetime_agent (wall clk n) email = Return dt ->
  exec_steps clk email (mkState ∅ ∅ n) meeting_steps
  = Return {| st_context := dt ∪ ∅;
              st_actions :=
                <[ "create_event" :=
                     VDict (create_event_agent (epoch clk (S n))
                              (<[ "datetime" := get (dt ∪ ∅) "datetime" ]>
                                 (<[ "summary" := VStr ("Meeting with " +:+ sender email) ]> ∅))) ]>
                  (<[ "extract_datetime" := VDict dt ]> ∅);
              st_tick := S (S n) |}.
Proof.
  intros H. unfold meeting_steps. cbn [exec_steps].
  rewrite exec_step_extract_datetime. cbn [st_tick]. rewrite H.
  cbn [bind]. rewrite exec_step_create_event. cbn [bind].
  rewrite exec_step_other by discriminate. reflexivity.
Qed.

Lemma singleton_slot_typed (v : value) :
  (v = VNone \/ exists d, v = VDatetime (at_16_00 d)) ->
  datetime_slot_typed ({[ "datetime" := v ]} ∪ ∅).
Proof.
  intros Hv. unfold datetime_slot_typed.
  rewrite (lookup_union_Some_l _ _ _ v) by apply lookup_singleton_eq.
  destruct Hv as [-> | [d ->]]; eauto.
Qed.

(** On 9999-12-31 a meeting request for "tomorrow" is not processed to
    the end: the call raises. *)
Lemma process_overflow :
  valid_datetime (wall last_day_clock 0) /\
  intent_agent grace = "meeting_request" /\
  snd (process last_day_clock 0 grace) = Raise OverflowError.
Proof.
  split; [exact last_morning_valid |].
  split; vm_compute; reflexivity.
Qed.

(** ** What QualityAssurance keeps of a reply *)

Section Lines.

#[local] Arguments String.append !s1 s2 : simpl nomatch.

Lemma LF_app (s : string) : Str.LF +:+ s = String "010" s.
Proof. reflexivity. Qed.

Lemma all_chars_app (P : ascii -> bool) (a b : string) :
  all_chars P (a +:+ b) = all_chars P a && all_chars P b.
Proof.
  induction a as [|c a IH]; simpl; [reflexivity |].
  now rewrite IH, andb_assoc.
Qed.

Lemma splitlines_LF (b : string) :
  Str.splitlines (String "010" b) = "" :: Str.splitlines b.
Proof. destruct b; reflexivity. Qed.

Lemma splitlines_break (c : ascii) (r : string) :
  Str.islinebreak c = true ->
  Str.splitlines (String c r)
  = "" :: match r with
          | String c' r' =>
              if Str.isCR c && Str.isLF c' then Str.splitlines r'
              else Str.splitlines r
          | EmptyString => []
          end.
Proof. intros H. cbn [Str.splitlines]. now rewrite H. Qed.

Lemma splitlines_inline (c : ascii) (r : string) :
  Str.islinebreak c = false ->
  Str.splitlines (String c r)
  = match Str.splitlines r with
    | [] => [String c ""]
    | l :: ls => String c l :: ls
    end.
Proof. intros H. cbn [Str.splitlines]. now rewrite H. Qed.

(** A non-empty run of inline characters before a line feed is a line. *)
Lemma splitlines_line (s b : string) :
  s <> "" -> all_chars inline s = true ->
  Str.splitlines (s +:+ String "010" b) = s :: Str.splitlines b.
Proof.
  induction s as [|c s IH]; [congruence |]. intros _ H.
  simpl in H. apply andb_true_iff in H as [Hc Hs].
  unfold inline in Hc. apply negb_true_iff in Hc.
  change (String c s +:+ String "010" b) with (String c (s +:+ String "010" b)).
  rewrite (splitlines_inline _ _ Hc).
  destruct s as [|c' s].
  - change ("" +:+ String "010" b) with (String "010" b).
    now rewrite splitlines_LF.
  - now rewrite IH.
Qed.

(** Whatever stands before a line feed, the lines it makes up to that
    line feed do not depend on what follows. *)
Lemma splitlines_before_LF (n : nat) (a : string) :
  (String.length a <= n)%nat ->
  exists l0 L, forall b,
    Str.splitlines (a +:+ String "010" b) = (l0 :: L) ++ Str.splitlines b.
Proof.
  revert a; induction n as [|n IH]; intros a Hn.
  - destruct a; [| simpl in Hn; lia].
    exists "", []. intros b. apply splitlines_LF.
  - destruct a as [|c r].
    { exists "", []. intros b. apply splitlines_LF. }
    simpl in Hn.
    destruct (Str.islinebreak c) eqn:Hc.
    + destruct r as [|c' r'].
      * destruct (Str.isCR c) eqn:Hcr.
        -- exists "", []. intros b.
           change (String c "" +:+ String "010" b) with (String c (String "010" b)).
           rewrite (splitlines_break _ _ Hc), Hcr. reflexivity.
        -- exists "", [""]. intros b.
           change (String c "" +:+ String "010" b) with (String c (String "010" b)).
           rewrite (splitlines_break _ _ Hc), Hcr. cbn [andb].
           now rewrite splitlines_LF.
      * destruct (Str.isCR c && Str.isLF c') eqn:Hcrlf.
        -- destruct (IH r' ltac:(simpl in Hn; lia)) as (l0 & L & HL).
           exists "", (l0 :: L). intros b.
           change (String c (String c' r') +:+ String "010" b)
             with (String c (String c' (r' +:+ String "010" b))).
           rewrite (splitlines_break _ _ Hc), Hcrlf. now rewrite HL.
        -- destruct (IH (String c' r') ltac:(simpl in *; lia)) as (l0 & L & HL).
           exists "", (l0 :: L). intros b.
           specialize (HL b).
           change (String c (String c' r') +:+ String "010" b)
             with (String c (String c' (r' +:+ String "010" b))).
           change (String c' r' +:+ String "010" b)
             with (String c' (r' +:+ String "010" b)) in HL.
           rewrite (splitlines_break _ _ Hc), Hcrlf. now rewrite HL.
    + destruct (IH r ltac:(lia)) as (l0 & L & HL).
      exists (String c l0), L. intros b.
      change (String c r +:+ String "010" b)
        with (String c (r +:+ String "010" b)).
      rewrite (splitlines_inline _ _ Hc), HL. reflexivity.
Qed.

Lemma rstrip_keeps (s : string) (c : ascii) :
  Str.isspace c = false ->
  Str.rstrip (s +:+ String c "") = s +:+ String c "".
Proof.
  intros Hc. induction s as [|x s IH].
  - simpl. now rewrite Hc.
  - change (String x s +:+ ?t) with (String x (s +:+ t)).
    cbn [Str.rstrip]. rewrite IH.
    assert (E : Str.is_empty (s +:+ String c "") = false) by now destruct s.
    now rewrite E, andb_false_r.
Qed.

Lemma occurs_join (sep x : string) (l : list string) :
  In x l -> occurs x (Str.join sep l).
Proof.
  unfold Str.join. induction l as [|y l IH]; [intros [] |].
  intros [-> | Hin].
  - destruct l as [|z l]; simpl.
    + exists "", "". now rewrite app_empty_r.
    + now exists "", (sep +:+ String.concat sep (z :: l)).
  - destruct l as [|z l]; [destruct Hin |].
    change (String.concat sep (y :: z :: l))
      with (y +:+ sep +:+ String.concat sep (z :: l)).
    apply occurs_app_r, occurs_app_r, IH, Hin.
Qed.

Lemma inline_digits (d : Decimal.uint) :
  all_chars inline (NilEmpty.string_of_uint d) = true.
Proof. induction d; simpl; auto. Qed.

Lemma inline_of_int (n : Z) : all_chars inline (Str.of_int n) = true.
Proof.
  unfold Str.of_int. destruct (Z.to_int n); simpl; apply inline_digits.
Qed.

Lemma inline_zeros (k : nat) :
  all_chars inline (String.concat "" (repeat "0" k)) = true.
Proof.
  induction k as [|k IH]; [reflexivity |].
  cbn [repeat]. destruct k as [|k]; [reflexivity |].
  change (String.concat "" ("0" :: repeat "0" (S k)))
    with ("0" +:+ "" +:+ String.concat "" (repeat "0" (S k))).
  rewrite !all_chars_app, IH. reflexivity.
Qed.

Lemma inline_zfill (w : nat) (s : string) :
  all_chars inline s = true -> all_chars inline (zfill w s) = true.
Proof.
  intros H. unfold zfill. now rewrite all_chars_app, inline_zeros, H.
Qed.

Lemma inline_strftime (d : datetime) : all_chars inline (strftime d) = true.
Proof.
  unfold strftime.
  rewrite !all_chars_app, !inline_zfill, inline_of_int by apply inline_of_int.
  now destruct (hour d <? 12).
Qed.

End Lines.

(** A line between two line feeds that [strip] leaves as it is, is still
    in the text after [qa_agent]. *)
Lemma qa_agent_keeps_line (a line b : string) :
  line <> "" -> all_chars inline line = true -> Str.strip line = line ->
  occurs line
    (qa_agent (a +:+ String "010" (String "010" (line +:+ String "010" b)))).
Proof.
  intros Hne Hin Hstrip.
  destruct (splitlines_before_LF (String.length a) a (le_n _)) as (l0 & L & HL).
  unfold qa_agent.
  rewrite HL, splitlines_LF, (splitlines_line _ _ Hne Hin).
  match goal with
  | |- context [Str.join Str.LF ?l] =>
      assert (Hl : In line l); [| set (ls := l) in * ]
  end.
  { apply in_map_iff. exists line. split; [exact Hstrip |].
    apply filter_In. split.
    - apply in_or_app. right. right. now left.
    - rewrite Hstrip. now destruct line. }
  destruct (negb (Str.contains closing (Str.join Str.LF ls))).
  - apply occurs_app_l. now apply occurs_join.
  - now apply occurs_join.
Qed.

Lemma occurs_trans (x y z : string) : occurs x y -> occurs y z -> occurs x z.
Proof.
  intros [p1 [q1 ->]] [p2 [q2 ->]].
  exists (p2 +:+ p1), (q1 +:+ q2). now rewrite !app_assoc_str.
Qed.

Lemma strip_keeps (c c' : ascii) (s : string) :
  Str.isspace c = false -> Str.isspace c' = false ->
  Str.strip (String c (s +:+ String c' "")) = String c (s +:+ String c' "").
Proof.
  intros Hc Hc'. unfold Str.strip. cbn [Str.lstrip]. rewrite Hc.
  apply (rstrip_keeps (String c s) c' Hc').
Qed.

Lemma meeting_line_kept (a b : string) (d : datetime) :
  occurs ("I've scheduled the meeting for " +:+ strftime d +:+ ".")
    (qa_agent (a +:+ Str.LF +:+ Str.LF +:+ meeting_line d +:+ Str.LF +:+ b)).
Proof.
  apply occurs_trans with (y := meeting_line d).
  { exists "Thanks — that works for me. ", "". unfold meeting_line.
    rewrite app_empty_r. rewrite <- !app_assoc_str. reflexivity. }
  rewrite !LF_app.
  assert (E : meeting_line d
            = String "T" (("hanks — that works for me. I've scheduled the meeting for "
                           +:+ strftime d) +:+ String "." "")).
  { unfold meeting_line. rewrite app_assoc_str. reflexivity. }
  apply qa_agent_keeps_line.
  - rewrite E. discriminate.
  - unfold meeting_line. rewrite !all_chars_app, inline_strftime. reflexivity.
  - rewrite E. now apply strip_keeps.
Qed.

(** The reply to the first message of [mock_inbox], read on 2025-01-01. *)
Example alice_reply :
  match snd (process demo_clock 0 alice) with
  | Return st => st_actions st !! "reply"
  | Raise _ => None
  end
  = Some (VStr ("Hi alice," +:+ Str.LF +:+
                "Thanks — that works for me. I've scheduled the meeting for 2025-01-02 04:00 PM."
                +:+ Str.LF +:+ "Best," +:+ Str.LF +:+ "SmartMailr")).
Proof. vm_compute. reflexivity. Qed.

(** ** When a second pass of QualityAssurance changes nothing *)

Section Tidy.

#[local] Arguments String.append !s1 s2 : simpl nomatch.

Lemma qa_agent_tidy (text : string) :
  qa_agent text
  = if Str.contains closing (tidy text) then tidy text
    else tidy text +:+ Str.LF +:+ Str.LF +:+ closing.
Proof.
  unfold qa_agent. fold (tidy text).
  now destruct (Str.contains closing (tidy text)).
Qed.

Lemma lstrip_chars (P : ascii -> bool) (s : string) :
  all_chars P s = true -> all_chars P (Str.lstrip s) = true.
Proof.
  induction s as [|c s IH]; [reflexivity |]. intros H. cbn [Str.lstrip].
  destruct (Str.isspace c); [| exact H].
  simpl in H. apply andb_true_iff in H as [_ H]. now apply IH.
Qed.

Lemma rstrip_chars (P : ascii -> bool) (s : string) :
  all_chars P s = true -> all_chars P (Str.rstrip s) = true.
Proof.
  induction s as [|c s IH]; [reflexivity |]. intros H. cbn [Str.rstrip].
  simpl in H. apply andb_true_iff in H as [Hc H].
  destruct (Str.isspace c && Str.is_empty (Str.rstrip s)); [reflexivity |].
  simpl. now rewrite Hc, IH.
Qed.

Lemma rstrip_rstrip (s : string) : Str.rstrip (Str.rstrip s) = Str.rstrip s.
Proof.
  induction s as [|c s IH]; [reflexivity |]. cbn [Str.rstrip].
  destruct (Str.isspace c && Str.is_empty (Str.rstrip s)) eqn:E;
    [reflexivity |].
  cbn [Str.rstrip]. now rewrite IH, E.
Qed.

Lemma lstrip_head (s : string) :
  match Str.lstrip s with
  | EmptyString => True
  | String c _ => Str.isspace c = false
  end.
Proof.
  induction s as [|c s IH]; [exact I |]. cbn [Str.lstrip].
  destruct (Str.isspace c) eqn:E; [exact IH | exact E].
Qed.

Lemma strip_strip (s : string) : Str.strip (Str.strip s) = Str.strip s.
Proof.
  unfold Str.strip. pose proof (lstrip_head s) as H.
  destruct (Str.lstrip s) as [|c r]; [reflexivity |].
  cbn [Str.rstrip]. rewrite H. cbn [andb Str.lstrip]. rewrite H.
  change (Str.rstrip (String c (Str.rstrip r)))
    with (if Str.isspace c && Str.is_empty (Str.rstrip (Str.rstrip r))
          then "" else String c (Str.rstrip (Str.rstrip r))).
  now rewrite H, rstrip_rstrip.
Qed.

(** No line of [splitlines] holds a line boundary. *)
Lemma splitlines_lines_inline (n : nat) (s : string) :
  (String.length s <= n)%nat ->
  Forall (fun l => all_chars inline l = true) (Str.splitlines s).
Proof.
  revert s; induction n as [|n IH]; intros s Hn.
  - destruct s; [constructor | simpl in Hn; lia].
  - destruct s as [|c r]; [constructor |]. simpl in Hn.
    destruct (Str.islinebreak c) eqn:Hc.
    + rewrite (splitlines_break _ _ Hc). constructor; [reflexivity |].
      destruct r as [|c' r']; [constructor |].
      destruct (Str.isCR c && Str.isLF c').
      * apply IH. simpl in Hn. lia.
      * apply IH. lia.
    + rewrite (splitlines_inline _ _ Hc).
      pose proof (IH r ltac:(lia)) as Hr.
      destruct (Str.splitlines r) as [|l ls].
      * constructor; [| constructor]. simpl. unfold inline at 1. now rewrite Hc.
      * inversion Hr as [|? ? Hl Hls]; subst.
        constructor; [| exact Hls]. simpl. unfold inline at 1.
        now rewrite Hc, Hl.
Qed.

(** The lines [tidy] joins are tidy lines. *)
Lemma tidy_lines (text : string) :
  Forall tidy_line
    (map Str.strip
       (List.filter (fun line => negb (Str.is_empty (Str.strip line)))
                    (Str.splitlines text))).
Proof.
  pose proof (splitlines_lines_inline _ text (le_n _)) as H.
  induction H as [|l ls Hl _ IH]; [constructor |].
  cbn [List.filter].
  destruct (Str.is_empty (Str.strip l)) eqn:E; cbn [negb]; [exact IH |].
  cbn [map]. constructor; [| exact IH].
  split; [| split].
  - intros E'. rewrite E' in E. discriminate.
  - unfold Str.strip. now apply rstrip_chars, lstrip_chars.
  - apply strip_strip.
Qed.

(** A run of inline characters is its own single line. *)
Lemma splitlines_one (s : string) :
  s <> "" -> all_chars inline s = true -> Str.splitlines s = [s].
Proof.
  induction s as [|c s IH]; [congruence |]. intros _ H.
  simpl in H. apply andb_true_iff in H as [Hc Hs].
  unfold inline in Hc. apply negb_true_iff in Hc.
  rewrite (splitlines_inline _ _ Hc).
  destruct s as [|c' s]; [reflexivity |].
  rewrite IH by (congruence || assumption). reflexivity.
Qed.

Lemma join_cons (sep l : string) (l' : string) (ls : list string) :
  Str.join sep (l :: l' :: ls) = l +:+ sep +:+ Str.join sep (l' :: ls).
Proof. reflexivity. Qed.

(** Joining tidy lines and splitting again gives the lines back, also
    when more text follows after a line feed. *)
Lemma splitlines_join (ls : list string) :
  Forall tidy_line ls -> Str.splitlines (Str.join Str.LF ls) = ls.
Proof.
  induction 1 as [|l ls (Hne & Hin & _) Hls IH]; [reflexivity |].
  destruct ls as [|l' ls].
  - now apply splitlines_one.
  - rewrite join_cons, LF_app, (splitlines_line _ _ Hne Hin). now rewrite IH.
Qed.

Lemma splitlines_join_LF (ls : list string) (b : string) :
  Forall tidy_line ls -> ls <> [] ->
  Str.splitlines (Str.join Str.LF ls +:+ String "010" b)
  = ls ++ Str.splitlines b.
Proof.
  induction 1 as [|l ls (Hne & Hin & _) Hls IH]; [congruence |]. intros _.
  destruct ls as [|l' ls].
  - change (Str.join Str.LF [l]) with l.
    now rewrite (splitlines_line _ _ Hne Hin).
  - rewrite join_cons, LF_app, !app_assoc_str.
    change (String "010" (Str.join Str.LF (l' :: ls)) +:+ String "010" b)
      with (String "010" (Str.join Str.LF (l' :: ls) +:+ String "010" b)).
    rewrite (splitlines_line _ _ Hne Hin), IH by discriminate. reflexivity.
Qed.

(** Tidy lines pass the filter and the stripping of [tidy] unchanged. *)
Lemma tidy_lines_kept (ls : list string) :
  Forall tidy_line ls ->
  map Str.strip
    (List.filter (fun line => negb (Str.is_empty (Str.strip line))) ls) = ls.
Proof.
  induction 1 as [|l ls (Hne & _ & Hs) _ IH]; [reflexivity |].
  cbn [List.filter]. rewrite Hs.
  destruct l as [|c l]; [congruence |]. cbn [Str.is_empty negb map].
  now rewrite Hs, IH.
Qed.

Lemma tidy_tidy (text : string) : tidy (tidy text) = tidy text.
Proof.
  unfold tidy at 2 3. pose proof (tidy_lines text) as H.
  set (ls := map Str.strip _) in *.
  unfold tidy. now rewrite (splitlines_join _ H), (tidy_lines_kept _ H).
Qed.

Lemma join_app (sep : string) (ls ms : list string) :
  ls <> [] -> ms <> [] ->
  Str.join sep (ls ++ ms) = Str.join sep ls +:+ sep +:+ Str.join sep ms.
Proof.
  intros Hls Hms. induction ls as [|l ls IH]; [congruence |].
  destruct ls as [|l' ls].
  - destruct ms as [|m ms]; [congruence | reflexivity].
  - change ((l :: l' :: ls) ++ ms) with (l :: l' :: (ls ++ ms)).
    rewrite !join_cons.
    change (l' :: ls ++ ms) with ((l' :: ls) ++ ms).
    rewrite IH by discriminate. now rewrite !app_assoc_str.
Qed.

(** What [tidy] makes of a tidy text to which the closing was appended
    after a blank line: the blank line is gone. *)
Lemma tidy_appended (text : string) :
  tidy (tidy text +:+ Str.LF +:+ Str.LF +:+ closing)
  = if Str.is_empty (tidy text) then closing
    else tidy text +:+ Str.LF +:+ closing.
Proof.
  unfold tidy at 2 3 4. pose proof (tidy_lines text) as H.
  set (ls := map Str.strip _) in *.
  destruct ls as [|l ls].
  - reflexivity.
  - assert (Hne : Str.is_empty (Str.join Str.LF (l :: ls)) = false).
    { inversion H as [|? ? (Hl & _) _]; subst.
      destruct l as [|c l]; [congruence |]. now destruct ls. }
    rewrite Hne. unfold tidy. rewrite !LF_app.
    rewrite (splitlines_join_LF _ _ H) by discriminate.
    rewrite List.filter_app, map_app, (tidy_lines_kept _ H).
    change (map Str.strip
              (List.filter (fun line => negb (Str.is_empty (Str.strip line)))
                 (Str.splitlines (String "010" closing))))
      with ["Best,"; "SmartMailr"].
    rewrite join_app by discriminate. reflexivity.
Qed.

Lemma app_cancel (a b c : string) : a +:+ b = a +:+ c -> b = c.
Proof.
  induction a as [|x a IH]; simpl; [auto |]. intros [= H]. now apply IH.
Qed.

(** X1. A second pass of [qa_agent] changes nothing exactly when the
    first pass found the closing in place; when the first pass had to
    append it, the second pass removes the blank line before it. *)
Lemma qa_agent_fixed_iff (text : string) :
  qa_agent (qa_agent text) = qa_agent text
  <-> Str.contains closing (tidy text) = true.
Proof.
  rewrite (qa_agent_tidy text).
  destruct (Str.contains closing (tidy text)) eqn:Hc.
  - split; [reflexivity | intros _].
    now rewrite qa_agent_tidy, tidy_tidy, Hc.
  - split; [| discriminate]. intros E. exfalso.
    rewrite qa_agent_tidy, tidy_appended in E.
    destruct (Str.is_empty (tidy text)) eqn:He.
    + destruct (tidy text); [| discriminate He].
      vm_compute in E. discriminate E.
    + assert (Hin : Str.contains closing (tidy text +:+ Str.LF +:+ closing)
                    = true).
      { apply contains_occurs, occurs_app_r, occurs_app_r.
        exists "", "". now rewrite app_empty_r. }
      rewrite Hin in E. apply app_cancel in E. discriminate E.
Qed.

Lemma tidy_ends_with_closing (a : string) :
  exists pre, tidy (a +:+ Str.LF +:+ Str.LF +:+ closing) = pre +:+ closing.
Proof.
  destruct (splitlines_before_LF _ a (le_n _)) as (l0 & L & HL).
  unfold tidy. rewrite !LF_app, HL.
  rewrite List.filter_app, map_app.
  change (map Str.strip
            (List.filter (fun line => negb (Str.is_empty (Str.strip line)))
               (Str.splitlines (String "010" closing))))
    with ["Best,"; "SmartMailr"].
  set (F := map Str.strip _).
  destruct F as [|f F].
  - now exists "".
  - rewrite join_app by discriminate.
    exists (Str.join Str.LF (f :: F) +:+ Str.LF).
    now rewrite app_assoc_str.
Qed.

Lemma contains_suffix (w pre : string) : Str.contains w (pre +:+ w) = true.
Proof.
  apply contains_occurs, occurs_app_r. exists "", "". now rewrite app_empty_r.
Qed.

(** After one pass the closing is in place for the next. *)
Lemma tidy_qa_contains (text : string) :
  Str.contains closing (tidy (qa_agent text)) = true.
Proof.
  rewrite qa_agent_tidy.
  destruct (Str.contains closing (tidy text)) eqn:Hc.
  - now rewrite tidy_tidy.
  - destruct (tidy_ends_with_closing (tidy text)) as [pre ->].
    apply contains_suffix.
Qed.

(** X2. Whatever the text, the result of [qa_agent] holds the closing,
    and a third pass changes nothing a second pass has left: two passes
    reach a fixed point. *)
Theorem qa_agent_settles (text : string) :
  occurs closing (qa_agent text) /\
  qa_agent (qa_agent (qa_agent text)) = qa_agent (qa_agent text).
Proof.
  split.
  - rewrite qa_agent_tidy.
    destruct (Str.contains closing (tidy text)) eqn:Hc.
    + now apply contains_occurs.
    + apply occurs_app_r, occurs_app_r, occurs_app_r.
      exists "", "". now rewrite app_empty_r.
  - pose proof (tidy_qa_contains text) as H1.
    rewrite (qa_agent_tidy (qa_agent text)), H1.
    now rewrite qa_agent_tidy, tidy_tidy, H1.
Qed.

Lemma lstrip_blank (s : string) :
  all_chars Str.isspace s = true -> Str.lstrip s = "".
Proof.
  induction s as [|c s IH]; [reflexivity |]. simpl. intros H.
  apply andb_true_iff in H as [Hc H]. now rewrite Hc, IH.
Qed.

(** The lines of a text are made of characters of the text. *)
Lemma splitlines_chars (P : ascii -> bool) (n : nat) (s : string) :
  (String.length s <= n)%nat -> all_chars P s = true ->
  Forall (fun l => all_chars P l = true) (Str.splitlines s).
Proof.
  revert s; induction n as [|n IH]; intros s Hn HP.
  - destruct s; [constructor | simpl in Hn; lia].
  - destruct s as [|c r]; [constructor |]. simpl in Hn.
    simpl in HP. apply andb_true_iff in HP as [Hc Hr].
    destruct (Str.islinebreak c) eqn:Hb.
    + rewrite (splitlines_break _ _ Hb). constructor; [reflexivity |].
      destruct r as [|c' r']; [constructor |].
      destruct (Str.isCR c && Str.isLF c').
      * simpl in Hr. apply andb_true_iff in Hr as [_ Hr].
        apply IH; [simpl in Hn; lia | exact Hr].
      * apply IH; [lia | exact Hr].
    + rewrite (splitlines_inline _ _ Hb).
      pose proof (IH r ltac:(lia) Hr) as Hl.
      destruct (Str.splitlines r) as [|l ls].
      * constructor; [| constructor]. simpl. now rewrite Hc.
      * inversion Hl as [|? ? Hl0 Hls]; subst.
        constructor; [| exact Hls]. simpl. now rewrite Hc, Hl0.
Qed.

(** X3. Of a text that is empty or all white space [qa_agent] makes the
    closing alone, after two line feeds. *)
Theorem qa_agent_blank (text : string) :
  all_chars Str.isspace text = true ->
  qa_agent text = Str.LF +:+ Str.LF +:+ closing.
Proof.
  intros H.
  assert (E : tidy text = "").
  { unfold tidy.
    pose proof (splitlines_chars Str.isspace _ text (le_n _) H) as Hl.
    induction Hl as [|l ls Hl _ IH]; [reflexivity |].
    cbn [List.filter].
    assert (El : Str.strip l = "")
      by (unfold Str.strip; now rewrite (lstrip_blank _ Hl)).
    rewrite El. exact IH. }
  rewrite qa_agent_tidy, E. reflexivity.
Qed.

Lemma qa_agent_blank_witness :
  qa_agent ("  " +:+ Str.LF +:+ String "009" " ") = Str.LF +:+ Str.LF +:+ closing.
Proof. apply qa_agent_blank. reflexivity. Defined.

End Tidy.

(** What [reply_generator_agent] returns ends with the closing after a
    blank line. *)
Lemma reply_generator_agent_signed (email : Email) (plan : Plan)
    (context : gmap string value) (r : string) :
  reply_generator_agent email plan context = Return r ->
  exists a, r = a +:+ Str.LF +:+ Str.LF +:+ closing.
Proof.
  unfold reply_generator_agent. fold signature.
  destruct (String.eqb (intent plan) "meeting_request").
  { destruct (if truthy _ then _ else _) as [t|e]; [| discriminate].
    cbn [bind]. intros [= <-].
    exists (greeting email +:+
            "Thanks — that works for me. I've scheduled the meeting for "
            +:+ t +:+ ".").
    now rewrite !app_assoc_str. }
  destruct (String.eqb (intent plan) "info_request").
  { intros [= <-].
    exists (greeting email +:+
            "Thanks for reaching out. I will gather the information and send it shortly.").
    now rewrite !app_assoc_str. }
  destruct (String.eqb (intent plan) "acknowledgement"); intros [= <-].
  - exists (greeting email +:+ "Thanks for the update — noted.").
    now rewrite !app_assoc_str.
  - exists (greeting email +:+
            "Thanks for your message. I'll get back to you soon.").
    now rewrite !app_assoc_str.
Qed.

(** X4. On every reply [reply_generator_agent] returns, for any sender,
    [qa_agent] finds the closing in place: it appends nothing, returns
    the tidied reply, which ends with the closing, and a second pass
    changes nothing. *)
Theorem qa_agent_on_replies (email : Email) (plan : Plan)
    (context : gmap string value) (r : string) :
  reply_generator_agent email plan context = Return r ->
  qa_agent r = tidy r /\
  (exists pre, qa_agent r = pre +:+ closing) /\
  qa_agent (qa_agent r) = qa_agent r.
Proof.
  intros Hr.
  destruct (reply_generator_agent_signed _ _ _ _ Hr) as [a ->].
  destruct (tidy_ends_with_closing a) as [pre Hpre].
  assert (Hc : Str.contains closing
                 (tidy (a +:+ Str.LF +:+ Str.LF +:+ closing)) = true)
    by (rewrite Hpre; apply contains_suffix).
  assert (E : qa_agent (a +:+ Str.LF +:+ Str.LF +:+ closing)
              = tidy (a +:+ Str.LF +:+ Str.LF +:+ closing))
    by now rewrite qa_agent_tidy, Hc.
  split; [exact E | split].
  - exists pre. now rewrite E.
  - rewrite E. now rewrite qa_agent_tidy, tidy_tidy, Hc.
Qed.

Lemma qa_agent_on_replies_witness :
  qa_agent (qa_agent ("Hi alice," +:+ Str.LF +:+ Str.LF +:+
                      "Thanks for the update — noted." +:+ signature))
  = qa_agent ("Hi alice," +:+ Str.LF +:+ Str.LF +:+
              "Thanks for the update — noted." +:+ signature).
Proof.
  apply (proj2 (proj2 (qa_agent_on_replies alice
                         {| intent := "acknowledgement"; steps := [] |} ∅ _
                         eq_refl))).
Defined.

(** ** ReplyGenerator: errors and the address *)

(** X5. What a meeting request's reply does with the value the context
    holds under [datetime], kind by kind.  No entry, [None], [False], the
    empty string or the empty dictionary: the reply says "a time".  A
    date: the reply says the date as [strftime] prints it.  [True], a
    string that is not empty or a dictionary that is not empty: the call
    raises [AttributeError], as such a value has no [strftime].  With any
    other intent the reply is returned whatever the context holds. *)
Theorem reply_generator_agent_raises (email : Email) (plan : Plan)
    (context : gmap string value) :
  (intent plan <> "meeting_request" ->
   returns (reply_generator_agent email plan context)) /\
  (intent plan = "meeting_request" ->
   (context !! "datetime" = None \/ context !! "datetime" = Some VNone \/
    context !! "datetime" = Some (VBool false) \/
    context !! "datetime" = Some (VStr "") \/
    context !! "datetime" = Some (VDict ∅) ->
    reply_generator_agent email plan context
    = Return (greeting email +:+
              "Thanks — that works for me. I've scheduled the meeting for a time."
              +:+ signature)) /\
   (forall d, context !! "datetime" = Some (VDatetime d) ->
    reply_generator_agent email plan context
    = Return (greeting email +:+
              "Thanks — that works for me. I've scheduled the meeting for "
              +:+ strftime d +:+ "." +:+ signature)) /\
   (context !! "datetime" = Some (VBool true) \/
    (exists s, s <> "" /\ context !! "datetime" = Some (VStr s)) \/
    (exists m, m <> ∅ /\ context !! "datetime" = Some (VDict m)) ->
    reply_generator_agent email plan context = Raise AttributeError)).
Proof.
  unfold reply_generator_agent, returns, get. split.
  - intros Hi. apply String.eqb_neq in Hi. rewrite Hi.
    destruct (String.eqb (intent plan) "info_request");
      [| destruct (String.eqb (intent plan) "acknowledgement")]; eauto.
  - intros ->.
    change (String.eqb "meeting_request" "meeting_request") with true.
    cbv iota. split; [| split].
    + intros [-> | [-> | [-> | [-> | ->]]]]; reflexivity.
    + intros d ->. reflexivity.
    + intros [-> | [(s & Hs & ->) | (m & Hm & ->)]].
      * reflexivity.
      * destruct s; [congruence | reflexivity].
      * assert (E : truthy (VDict m) = true).
        { cbn [truthy]. destruct (map_to_list m) eqn:E; [| reflexivity].
          apply map_to_list_empty_iff in E. congruence. }
        change (default VNone (Some (VDict m))) with (VDict m).
        now rewrite E.
Qed.

Lemma reply_generator_agent_raises_witness :
  reply_generator_agent alice (planner_agent alice)
    {[ "datetime" := VStr "soon" ]}
  = Raise AttributeError.
Proof.
  apply (proj2 (reply_generator_agent_raises alice (planner_agent alice)
                  {[ "datetime" := VStr "soon" ]}) eq_refl).
  right. left. exists "soon". split; [discriminate | reflexivity].
Defined.

Lemma split_head_no_sep (sep : ascii) (s : string) :
  ~ occurs (String sep "") (Str.split_head sep s).
Proof.
  induction s as [|c s IH]; cbn [Str.split_head].
  - intros [[|x pre] [post H]]; discriminate H.
  - destruct (Ascii.eqb_spec c sep) as [->|Hne].
    + intros [[|x pre] [post H]]; discriminate H.
    + intros [[|x pre] [post H]].
      * injection H as H _. congruence.
      * injection H as _ H. apply IH. now exists pre, post.
Qed.

Lemma split_head_prefix (sep : ascii) (s : string) :
  exists rest, s = Str.split_head sep s +:+ rest /\
               (rest = "" \/ exists r, rest = String sep r).
Proof.
  induction s as [|c s IH]; cbn [Str.split_head].
  - exists "". split; [reflexivity | now left].
  - destruct (Ascii.eqb_spec c sep) as [->|Hne].
    + exists (String sep s). split; [reflexivity | right; now exists s].
    + destruct IH as (rest & E & Hr). exists rest. split; [| exact Hr].
      change (String c (Str.split_head sep s) +:+ rest)
        with (String c (Str.split_head sep s +:+ rest)).
      now rewrite <- E.
Qed.

Lemma split_head_whole (sep : ascii) (s : string) :
  ~ occurs (String sep "") s -> Str.split_head sep s = s.
Proof.
  induction s as [|c s IH]; [reflexivity |]. intros Hno.
  cbn [Str.split_head].
  destruct (Ascii.eqb_spec c sep) as [->|Hne].
  - exfalso. apply Hno. now exists "", s.
  - f_equal. apply IH. intros [pre [post ->]]. apply Hno.
    now exists (String c pre), post.
Qed.

(** X6. The name in the greeting is the sender up to its first "@": it
    holds no "@"; the sender is that name followed by nothing or by "@"
    and more; and a sender without "@" is greeted by the whole of it,
    no exception. *)
Theorem local_part_of_sender (email : Email) :
  ~ occurs "@" (local_part email) /\
  (exists rest, sender email = local_part email +:+ rest /\
                (rest = "" \/ exists r, rest = "@" +:+ r)) /\
  (~ occurs "@" (sender email) -> local_part email = sender email).
Proof.
  unfold local_part. split; [apply split_head_no_sep | split].
  - apply split_head_prefix.
  - apply split_head_whole.
Qed.

Lemma local_part_of_sender_witness :
  local_part (mkEmail 8 "postmaster" "Hello" "Hello" epoch_day) = "postmaster".
Proof.
  apply (proj2 (proj2 (local_part_of_sender
                         (mkEmail 8 "postmaster" "Hello" "Hello" epoch_day)))).
  intros H. apply contains_occurs in H. vm_compute in H. discriminate H.
Defined.

(** ** EventCreator: the entries of the event record *)

(** X7. The event record keeps every entry of [event_info], also one
    under [event_id] or [status], which then replaces the generated one;
    it holds "created" under [status] when [event_info] has no such key;
    and its keys are those of [event_info], [event_id] and [status]. *)
Theorem create_event_agent_entries (t : Q) (info : gmap string value) :
  (forall k v, info !! k = Some v -> create_event_agent t info !! k = Some v) /\
  (info !! "status" = None ->
   create_event_agent t info !! "status" = Some (VStr "created")) /\
  (forall k, is_Some (create_event_agent t info !! k) <->
             is_Some (info !! k) \/ k = "event_id" \/ k = "status").
Proof.
  unfold create_event_agent. split; [| split].
  - intros k v H. now apply lookup_union_Some_l.
  - intros H. rewrite lookup_union_r by exact H. apply lookup_insert_eq.
  - intros k. rewrite lookup_union_is_Some. split.
    + intros [H | H]; [now left | right].
      destruct (decide (k = "status")) as [->|Hs]; [now right |].
      rewrite lookup_insert_ne in H by congruence.
      destruct (decide (k = "event_id")) as [->|He]; [now left |].
      rewrite lookup_insert_ne, lookup_empty in H by congruence.
      now destruct H.
    + intros [H | [-> | ->]]; [now left | right | right].
      * rewrite lookup_insert_ne by discriminate.
        rewrite lookup_insert_eq. eauto.
      * rewrite lookup_insert_eq. eauto.
Qed.

Lemma create_event_agent_entries_witness :
  create_event_agent (1700000000 # 1) {[ "event_id" := VStr "mine" ]}
    !! "event_id" = Some (VStr "mine").
Proof.
  apply (proj1 (create_event_agent_entries (1700000000 # 1)
                  {[ "event_id" := VStr "mine" ]})).
  reflexivity.
Defined.

(** ** DateTimeExtractor: when it raises, and letter case *)

(** X8. On a valid reference date the extractor raises exactly when the
    date is 9999-12-31 and the body asks for the next day, with
    "tomorrow", or with "4 pm" or "4pm" and no "today"; what it raises is
    [OverflowError].  "today" and a body without cue are resolved on
    that day too. *)
Theorem extract_datetime_agent_raises (now : datetime) (email : Email)
    (e : exn) :
  valid_datetime now ->
  let text := Str.lower (body email) in
  extract_datetime_agent now email = Raise e <->
  e = OverflowError /\ last_day now /\
  (occurs "tomorrow" text \/
   (~ occurs "today" text /\ (occurs "4 pm" text \/ occurs "4pm" text))).
Proof.
  intros Hvalid text.
  pose proof (contains_occurs "tomorrow" text) as Htom.
  pose proof (contains_occurs "today" text) as Htod.
  pose proof (contains_occurs "4 pm" text) as H4a.
  pose proof (contains_occurs "4pm" text) as H4b.
  assert (Hplus : (exists next, plus_one_day now = Return next /\ ~ last_day now)
                  \/ (plus_one_day now = Raise OverflowError /\ last_day now)).
  { assert (Hdec : last_day now \/ ~ last_day now).
    { unfold last_day.
      destruct (Z.eq_dec (year now) 9999), (Z.eq_dec (month now) 12),
        (Z.eq_dec (day now) 31); tauto. }
    destruct Hdec as [Hl | Hl].
    - right. split; [now apply plus_one_day_last | exact Hl].
    - left. destruct (plus_one_day_next now Hvalid Hl) as (next & Hn & _).
      now exists next. }
  unfold extract_datetime_agent. fold text.
  destruct (Str.contains "tomorrow" text).
  { destruct Hplus as [(next & -> & Hl) | (-> & Hl)]; cbn [bind].
    - split; [discriminate | intros (_ & H & _); contradiction].
    - split; [intros [= <-] | now intros (-> & _)].
      repeat split; try apply Hl. left. now apply Htom. }
  destruct (Str.contains "today" text).
  { split; [discriminate | intros (_ & _ & [H | [H _]])].
    - apply Htom in H. discriminate H.
    - exfalso. apply H. now apply Htod. }
  destruct (Str.contains "4 pm" text || Str.contains "4pm" text) eqn:H4.
  { destruct Hplus as [(next & -> & Hl) | (-> & Hl)]; cbn [bind].
    - split; [discriminate | intros (_ & H & _); contradiction].
    - split; [intros [= <-] | now intros (-> & _)].
      repeat split; try apply Hl. right. split.
      + intros H. apply Htod in H. discriminate H.
      + apply orb_true_iff in H4 as [H | H]; [left | right];
          [now apply H4a | now apply H4b]. }
  split; [discriminate | intros (_ & _ & [H | [_ [H | H]]])].
  - apply Htom in H. discriminate H.
  - apply H4a in H. rewrite H in H4. discriminate H4.
  - apply H4b in H. rewrite H, orb_true_r in H4. discriminate H4.
Qed.

Lemma extract_datetime_agent_raises_witness :
  extract_datetime_agent last_morning
    (mkEmail 9 "heidi@example.com" "Call" "Ring me at 4pm." epoch_day)
  = Raise OverflowError.
Proof.
  apply (proj2 (extract_datetime_agent_raises last_morning
                  (mkEmail 9 "heidi@example.com" "Call" "Ring me at 4pm."
                     epoch_day)
                  OverflowError last_morning_valid)).
  split; [reflexivity |]. split; [now repeat split |].
  right. split.
  - intros H. apply contains_occurs in H. vm_compute in H. discriminate H.
  - right. apply contains_occurs. vm_compute. reflexivity.
Defined.

Lemma lower_char_lower_char (c : ascii) :
  Str.lower_char (Str.lower_char c) = Str.lower_char c.
Proof. destruct c as [[] [] [] [] [] [] [] []]; reflexivity. Qed.

Lemma lower_lower (s : string) : Str.lower (Str.lower s) = Str.lower s.
Proof.
  induction s as [|c s IH]; [reflexivity |]. simpl.
  now rewrite lower_char_lower_char, IH.
Qed.

(** X9. Classification, plan and date extraction look at the letters
    only up to case: two messages whose subjects, and whose bodies, are
    the same once lower-cased get the same intent and the same steps,
    and at the same reference time the same extraction; in particular a
    message and its lower-cased copy. *)
Theorem letter_case_ignored (e1 e2 : Email) (now : datetime) :
  Str.lower (subject e1) = Str.lower (subject e2) ->
  Str.lower (body e1) = Str.lower (body e2) ->
  intent_agent e1 = intent_agent e2 /\
  steps (planner_agent e1) = steps (planner_agent e2) /\
  extract_datetime_agent now e1 = extract_datetime_agent now e2 /\
  intent_agent (mkEmail (id e1) (sender e1) (Str.lower (subject e1))
                        (Str.lower (body e1)) (received_at e1))
  = intent_agent e1.
Proof.
  intros Hs Hb.
  assert (Ht : text_of e1 = text_of e2).
  { unfold text_of. now rewrite !lower_app, Hs, Hb. }
  assert (Hi : intent_agent e1 = intent_agent e2).
  { now rewrite !intent_agent_cases, Ht. }
  split; [exact Hi | split; [| split]].
  - unfold planner_agent. now rewrite Hi.
  - unfold extract_datetime_agent. now rewrite Hb.
  - rewrite !intent_agent_cases. unfold text_of. cbn [subject body].
    now rewrite !lower_app, !lower_lower.
Qed.

Lemma letter_case_ignored_witness :
  intent_agent (mkEmail 10 "ivan@example.com" "THANKS" "NOTED." epoch_day)
  = intent_agent (mkEmail 11 "judy@example.com" "thanks" "Noted." epoch_day).
Proof.
  apply (proj1 (letter_case_ignored
                  (mkEmail 10 "ivan@example.com" "THANKS" "NOTED." epoch_day)
                  (mkEmail 11 "judy@example.com" "thanks" "Noted." epoch_day)
                  epoch_day eq_refl eq_refl)).
Defined.

(** ** IntentClassifier: a keyword across subject and body *)

(** X10. Subject and body are read as one text with one space between
    them, so a keyword of two words is found when its first word ends
    the subject and its second word starts the body: "could you" and
    "can you" then give info_request, "thank you" acknowledgement, when
    no word of an earlier category occurs. *)
Theorem keyword_across_subject_and_body (email : Email) (w1 w2 s b : string) :
  Str.lower (subject email) = s +:+ w1 ->
  Str.lower (body email) = w2 +:+ b ->
  let text := Str.lower (subject email +:+ " " +:+ body email) in
  occurs (w1 +:+ " " +:+ w2) text /\
  (In (w1 +:+ " " +:+ w2) ["please"; "could you"; "can you"; "send"] ->
   ~ has_word ["meet"; "meeting"; "schedule"; "call"] text ->
   intent_agent email = "info_request") /\
  (In (w1 +:+ " " +:+ w2) ["thanks"; "thank you"; "acknowledge"] ->
   ~ has_word ["meet"; "meeting"; "schedule"; "call"] text ->
   ~ has_word ["please"; "could you"; "can you"; "send"] text ->
   intent_agent email = "acknowledgement").
Proof.
  intros Hs Hb text.
  assert (Hocc : occurs (w1 +:+ " " +:+ w2) text).
  { exists s, b. unfold text. rewrite !lower_app, Hs, Hb.
    now rewrite !app_assoc_str. }
  split; [exact Hocc |].
  rewrite intent_agent_cases. fold (text_of email) in text. fold text.
  split.
  - intros Hw Hm. apply any_in_false in Hm.
    assert (E : any_in info_words text = true)
      by (apply any_in_has_word; now exists (w1 +:+ " " +:+ w2)).
    unfold meeting_words in *. now rewrite Hm, E.
  - intros Hw Hm Hi. apply any_in_false in Hm. apply any_in_false in Hi.
    assert (E : any_in ack_words text = true)
      by (apply any_in_has_word; now exists (w1 +:+ " " +:+ w2)).
    unfold meeting_words, info_words in *. now rewrite Hm, Hi, E.
Qed.

Lemma keyword_across_subject_and_body_witness :
  intent_agent (mkEmail 12 "kim@example.com" "A big thank" "You all!" epoch_day)
  = "acknowledgement".
Proof.
  apply (proj2 (proj2 (keyword_across_subject_and_body
                         (mkEmail 12 "kim@example.com" "A big thank" "You all!"
                            epoch_day)
                         "thank" "you" "a big " " all!" eq_refl eq_refl))).
  - right; left; reflexivity.
  - word_absent.
  - word_absent.
Defined.

(** ** Orchestrator: the steps it acts on, and the keys of [actions] *)

Lemma executable_false (step : string) :
  executable step = false ->
  step <> "extract_datetime" /\ step <> "create_event".
Proof.
  unfold executable. intros H. apply orb_false_iff in H as [H1 H2].
  split; now apply String.eqb_neq.
Qed.

Lemma exec_steps_executable (clk : clock) (email : Email) (l : list string)
    (st : exec_state) :
  exec_steps clk email st l
  = exec_steps clk email st (List.filter executable l).
Proof.
  revert st; induction l as [|s l IH]; intros st; [reflexivity |].
  cbn [List.filter exec_steps].
  destruct (executable s) eqn:E.
  - cbn [exec_steps]. destruct (exec_step clk email st s); cbn [bind]; auto.
  - destruct (executable_false _ E) as [H1 H2].
    rewrite exec_step_other by assumption. cbn [bind]. apply IH.
Qed.

(** X11. The executor acts on the steps extract_datetime and create_event
    only.  Any other step name, known or not, is passed over: it cannot
    raise, and a plan gives the same result, actions and context, as the
    plan with those steps left out. *)
Theorem action_executor_passes_over (clk : clock) (n : nat) (plan : Plan)
    (email : Email) (context : gmap string value) :
  (forall st step, executable step = false ->
     exec_step clk email st step = Return st) /\
  action_executor clk n plan email context
  = action_executor clk n
      {| intent := intent plan;
         steps := List.filter executable (steps plan) |}
      email context.
Proof.
  split.
  - intros st step E. destruct (executable_false _ E).
    now apply exec_step_other.
  - unfold action_executor. cbn [steps intent].
    rewrite (exec_steps_executable clk email (steps plan)).
    destruct (exec_steps _ _ _ _) as [st|e]; [| reflexivity]. cbn [bind].
    assert (E : reply_generator_agent email plan (st_context st)
                = reply_generator_agent email
                    {| intent := intent plan;
                       steps := List.filter executable (steps plan) |}
                    (st_context st)) by reflexivity.
    now rewrite E.
Qed.

Lemma action_executor_passes_over_witness :
  exec_step demo_clock bob (mkState ∅ ∅ 0) "send_invoice"
  = Return (mkState ∅ ∅ 0).
Proof.
  apply (proj1 (action_executor_passes_over demo_clock 0 (planner_agent bob)
                  bob ∅)).
  reflexivity.
Defined.

Lemma exec_steps_keys (clk : clock) (email : Email) (l : list string)
    (st st' : exec_state) :
  exec_steps clk email st l = Return st' ->
  forall k, is_Some (st_actions st' !! k) <->
            is_Some (st_actions st !! k) \/
            (k = "extract_datetime" /\ In k l) \/
            (k = "create_event" /\ In k l).
Proof.
  revert st; induction l as [|s l IH]; intros st; cbn [exec_steps].
  - intros [= <-] k. cbn [In]. tauto.
  - destruct (exec_step clk email st s) as [st1|e] eqn:Hs; [| discriminate].
    cbn [bind]. intros H k. rewrite (IH _ H k). cbn [In].
    destruct (String.eqb_spec s "extract_datetime") as [->|H1].
    { rewrite exec_step_extract_datetime in Hs.
      destruct (extract_datetime_agent _ _) as [dt|e]; [| discriminate].
      cbn [bind] in Hs. injection Hs as <-. cbn [st_actions].
      rewrite lookup_insert_is_Some.
      clear IH H.
      destruct (decide ("extract_datetime" = k)) as [<-|Hk];
        intuition congruence. }
    destruct (String.eqb_spec s "create_event") as [->|H2].
    { rewrite exec_step_create_event in Hs. injection Hs as <-.
      cbn [st_actions]. rewrite lookup_insert_is_Some.
      clear IH H.
      destruct (decide ("create_event" = k)) as [<-|Hk];
        intuition congruence. }
    rewrite exec_step_other in Hs by assumption. injection Hs as <-.
    clear IH H. intuition congruence.
Qed.

(** What a returning call of [action_executor] is made of. *)
Lemma action_executor_inv (clk : clock) (n : nat) (plan : Plan)
    (email : Email) (context : gmap string value) (st' : exec_state) :
  action_executor clk n plan email context = Return st' ->
  exists st r,
    exec_steps clk email (mkState context ∅ n) (steps plan) = Return st /\
    reply_generator_agent email plan (st_context st) = Return r /\
    st' = {| st_context := st_context st;
             st_actions := <[ "sent" := VBool true ]>
                             (<[ "reply" := VStr (qa_agent r) ]> (st_actions st));
             st_tick := st_tick st |}.
Proof.
  unfold action_executor.
  destruct (exec_steps _ _ _ _) as [st|e]; [| discriminate]. cbn [bind].
  destruct (reply_generator_agent _ _ _) as [r|e] eqn:Hr; [| discriminate].
  cbn [bind]. intros [= <-]. now exists st, r.
Qed.

(** X12. The [actions] a call of [action_executor] returns have the keys
    [reply] and [sent], [extract_datetime] when the plan has that step,
    [create_event] when the plan has that step, and no other; [sent] is
    true and [reply] is a string. *)
Theorem action_executor_keys (clk : clock) (n : nat) (plan : Plan)
    (email : Email) (context : gmap string value) (st : exec_state) :
  action_executor clk n plan email context = Return st ->
  (forall k, is_Some (st_actions st !! k) <->
             k = "reply" \/ k = "sent" \/
             (k = "extract_datetime" /\ In k (steps plan)) \/
             (k = "create_event" /\ In k (steps plan))) /\
  st_actions st !! "sent" = Some (VBool true) /\
  exists reply, st_actions st !! "reply" = Some (VStr reply).
Proof.
  intros H.
  destruct (action_executor_inv _ _ _ _ _ _ H) as (st0 & r & Hs & _ & ->).
  cbn [st_actions]. split; [| split].
  - intros k. rewrite !lookup_insert_is_Some.
    rewrite (exec_steps_keys _ _ _ _ _ Hs k). cbn [st_actions].
    rewrite lookup_empty.
    assert (Hn : ~ is_Some (None : option value)) by (intros [? [=]]).
    clear H Hs.
    destruct (decide ("sent" = k)) as [<-|Hs]; [intuition congruence |].
    destruct (decide ("reply" = k)) as [<-|Hr]; intuition congruence.
  - apply lookup_insert_eq.
  - exists (qa_agent r). rewrite lookup_insert_ne by discriminate.
    apply lookup_insert_eq.
Qed.

Lemma action_executor_keys_witness :
  is_Some (st_actions
             (mkState ∅ (<[ "sent" := VBool true ]>
                           (<[ "reply" := VStr
                                 ("Hi carol," +:+ Str.LF +:+
                                  "Thanks for the update — noted." +:+ Str.LF
                                  +:+ closing) ]> ∅)) 0) !! "create_event") <->
  "create_event" = "reply" \/ "create_event" = "sent" \/
  ("create_event" = "extract_datetime" /\
   In "create_event" (steps (planner_agent carol))) \/
  ("create_event" = "create_event" /\
   In "create_event" (steps (planner_agent carol))).
Proof.
  apply (proj1 (action_executor_keys demo_clock 0 (planner_agent carol)
                  carol ∅ _ eq_refl) "create_event").
Defined.

(** ** Orchestrator: meeting requests *)

Lemma contains_false (w s : string) :
  ~ occurs w s -> Str.contains w s = false.
Proof.
  intros H. destruct (Str.contains w s) eqn:E; [| reflexivity].
  now apply contains_occurs in E.
Qed.

Lemma extract_datetime_agent_no_cue (now : datetime) (email : Email) :
  no_cue (Str.lower (body email)) ->
  extract_datetime_agent now email = Return {[ "datetime" := VNone ]}.
Proof.
  intros (H1 & H2 & H3 & H4). unfold extract_datetime_agent.
  now rewrite (contains_false _ _ H1), (contains_false _ _ H2),
    (contains_false _ _ H3), (contains_false _ _ H4).
Qed.

Lemma planner_agent_meeting (email : Email) :
  intent_agent email = "meeting_request" ->
  planner_agent email = {| intent := "meeting_request"; steps := meeting_steps |}.
Proof. intros H. unfold planner_agent. now rewrite H. Qed.

Lemma lookup_slot (v : value) :
  ({[ "datetime" := v ]} ∪ ∅ : gmap string value) !! "datetime" = Some v.
Proof. apply lookup_union_Some_l, lookup_singleton_eq. Qed.

Lemma get_slot (v : value) :
  get ({[ "datetime" := v ]} ∪ ∅) "datetime" = v.
Proof. unfold get. now rewrite lookup_slot. Qed.

(** X13. A meeting request whose body has no cue, whatever the subject
    says and whatever the clock reads, is processed to the end: [None]
    is stored under [datetime] in the context, in the recorded
    extraction and in the event, and the reply after [qa_agent] says the
    meeting is scheduled for "a time". *)
Theorem meeting_without_cue (clk : clock) (n : nat) (email : Email) :
  intent_agent email = "meeting_request" ->
  no_cue (Str.lower (body email)) ->
  exists st event reply,
    snd (process clk n email) = Return st /\
    st_context st !! "datetime" = Some VNone /\
    st_actions st !! "extract_datetime"
    = Some (VDict {[ "datetime" := VNone ]}) /\
    st_actions st !! "create_event" = Some (VDict event) /\
    event !! "datetime" = Some VNone /\
    st_actions st !! "sent" = Some (VBool true) /\
    st_actions st !! "reply" = Some (VStr reply) /\
    occurs "I've scheduled the meeting for a time." reply.
Proof.
  intros Hi Hno.
  pose proof (extract_datetime_agent_no_cue (wall clk n) email Hno) as Hx.
  pose proof (exec_steps_meeting clk n email _ Hx) as Hs.
  rewrite get_slot in Hs.
  assert (Hty : datetime_slot_typed ({[ "datetime" := VNone ]} ∪ ∅)).
  { right. left. apply lookup_slot. }
  unfold process. rewrite (planner_agent_meeting _ Hi). cbn [snd].
  destruct (action_executor_returns clk n
              {| intent := "meeting_request"; steps := meeting_steps |}
              email ∅ _ Hs Hty) as (r & Hr & ->).
  cbn [st_context st_actions] in *.
  rewrite (reply_generator_agent_shape _ _ _ Hty) in Hr.
  cbn [intent] in Hr. rewrite get_slot in Hr. injection Hr as <-.
  eexists. eexists. eexists.
  split; [reflexivity |]. cbn [st_context st_actions].
  split; [apply lookup_slot |].
  split.
  { rewrite !lookup_insert_ne by discriminate. apply lookup_insert_eq. }
  split.
  { rewrite !lookup_insert_ne by discriminate. apply lookup_insert_eq. }
  split.
  { unfold create_event_agent. apply lookup_union_Some_l, lookup_insert_eq. }
  split; [apply lookup_insert_eq |].
  split.
  { rewrite lookup_insert_ne by discriminate. apply lookup_insert_eq. }
  apply occurs_trans
    with (y := "Thanks — that works for me. I've scheduled the meeting for a time.").
  { now exists "Thanks — that works for me. ", "". }
  match goal with
  | |- occurs ?line (qa_agent ?r) =>
      replace r
        with (("Hi " +:+ Str.split_head "@" (sender email) +:+ ",") +:+
              String "010" (String "010"
                (line +:+ String "010" (Str.LF +:+ "Best," +:+ Str.LF +:+ "SmartMailr"))))
        by (rewrite !app_assoc_str; reflexivity)
  end.
  apply qa_agent_keeps_line; [discriminate | reflexivity | reflexivity].
Qed.

Lemma meeting_without_cue_witness :
  exists st event,
    snd (process last_day_clock 0
           (mkEmail 13 "lena@example.com" "Meeting tomorrow?" "Are you free?"
              epoch_day)) = Return st /\
    st_actions st !! "create_event" = Some (VDict event) /\
    event !! "datetime" = Some VNone.
Proof.
  destruct (meeting_without_cue last_day_clock 0
              (mkEmail 13 "lena@example.com" "Meeting tomorrow?" "Are you free?"
                 epoch_day))
    as (st & event & reply & H1 & _ & _ & H2 & H3 & _).
  - reflexivity.
  - repeat split; intros H; apply contains_occurs in H;
      vm_compute in H; discriminate H.
  - now exists st, event.
Defined.

(** X14. When a meeting request is processed to the end, the value the
    extractor found, [None] or a date at 16:00, is the one in the
    context, in the recorded extraction and in the event; the event is
    named "Meeting with " and the sender's address, and its [event_id]
    comes from the clock reading after the extractor's. *)
Theorem meeting_event_matches_extraction (clk : clock) (n : nat)
    (email : Email) (st : exec_state) :
  intent_agent email = "meeting_request" ->
  snd (process clk n email) = Return st ->
  exists v event,
    (v = VNone \/ exists d, v = VDatetime (at_16_00 d)) /\
    extract_datetime_agent (wall clk n) email = Return {[ "datetime" := v ]} /\
    st_context st !! "datetime" = Some v /\
    st_actions st !! "extract_datetime" = Some (VDict {[ "datetime" := v ]}) /\
    st_actions st !! "create_event" = Some (VDict event) /\
    event !! "datetime" = Some v /\
    event !! "summary" = Some (VStr ("Meeting with " +:+ sender email)) /\
    event !! "status" = Some (VStr "created") /\
    event !! "event_id"
    = Some (VStr ("evt_" +:+ Str.of_int (int_of_float (epoch clk (S n))))).
Proof.
  intros Hi. unfold process. rewrite (planner_agent_meeting _ Hi). cbn [snd].
  intros H.
  destruct (action_executor_inv _ _ _ _ _ _ H) as (st0 & r & Hs & _ & ->).
  cbn [steps] in Hs.
  destruct (extract_datetime_agent (wall clk n) email) as [dt|e] eqn:Hx.
  2:{ unfold meeting_steps in Hs. cbn [exec_steps] in Hs.
      rewrite exec_step_extract_datetime in Hs. cbn [st_tick] in Hs.
      rewrite Hx in Hs. discriminate Hs. }
  rewrite (exec_steps_meeting _ _ _ _ Hx) in Hs. injection Hs as <-.
  destruct (extract_datetime_agent_shape _ _ _ Hx) as (v & -> & Hv).
  rewrite get_slot. cbn [st_context st_actions].
  exists v. eexists.
  split; [exact Hv |]. split; [reflexivity |].
  split; [apply lookup_slot |].
  split.
  { rewrite !lookup_insert_ne by discriminate. apply lookup_insert_eq. }
  split.
  { rewrite !lookup_insert_ne by discriminate. apply lookup_insert_eq. }
  unfold create_event_agent.
  split; [apply lookup_union_Some_l, lookup_insert_eq |].
  split.
  { apply lookup_union_Some_l. rewrite lookup_insert_ne by discriminate.
    apply lookup_insert_eq. }
  split.
  { rewrite lookup_union_r.
    - apply lookup_insert_eq.
    - rewrite !lookup_insert_ne by discriminate. apply lookup_empty. }
  rewrite lookup_union_r.
  - rewrite lookup_insert_ne by discriminate. apply lookup_insert_eq.
  - rewrite !lookup_insert_ne by discriminate. apply lookup_empty.
Qed.

Lemma meeting_event_matches_extraction_witness :
  exists st v event,
    snd (process demo_clock 0 alice) = Return st /\
    st_context st !! "datetime" = Some v /\
    st_actions st !! "create_event" = Some (VDict event) /\
    event !! "datetime" = Some v.
Proof.
  destruct (snd (process demo_clock 0 alice)) as [st|e] eqn:Hst;
    [| vm_compute in Hst; discriminate Hst].
  destruct (meeting_event_matches_extraction demo_clock 0 alice st
              eq_refl Hst)
    as (v & event & _ & _ & H1 & _ & H2 & H3 & _).
  now exists st, v, event.
Defined.

(** ** Orchestrator: the other messages, and a whole inbox *)

Lemma exec_steps_idle (clk : clock) (email : Email) (l : list string)
    (st : exec_state) :
  List.filter executable l = [] -> exec_steps clk email st l = Return st.
Proof.
  intros H. now rewrite exec_steps_executable, H.
Qed.

Lemma empty_slot_typed : datetime_slot_typed (∅ : gmap string value).
Proof. left. apply lookup_empty. Qed.

Lemma action_executor_other (clk : clock) (n : nat) (email : Email)
    (r : string) :
  intent_agent email <> "meeting_request" ->
  reply_generator_agent email (planner_agent email) ∅ = Return r ->
  action_executor clk n (planner_agent email) email ∅
  = Return {| st_context := ∅;
              st_actions := <[ "sent" := VBool true ]>
                              (<[ "reply" := VStr (qa_agent r) ]> ∅);
              st_tick := n |}.
Proof.
  intros Hi Hr.
  destruct (planner_agent_lookup email) as (i & Hn & Hp).
  assert (Hidle : List.filter executable (steps (planner_agent email)) = []).
  { rewrite Hp. destruct i; [now rewrite Hn in Hi | reflexivity ..]. }
  unfold action_executor.
  rewrite (exec_steps_idle _ _ _ _ Hidle). cbn [bind st_context].
  now rewrite Hr.
Qed.

(** X15. A message that is no meeting request is processed without a
    look at either clock: whatever the clocks read, the call returns the
    same [actions], which hold the reply after [qa_agent] and [sent] and
    nothing else, and leaves the context empty. *)
Theorem other_messages_ignore_the_clock (email : Email) :
  intent_agent email <> "meeting_request" ->
  exists r,
    reply_generator_agent email (planner_agent email) ∅ = Return r /\
    forall clk n,
      snd (process clk n email)
      = Return {| st_context := ∅;
                  st_actions := <[ "sent" := VBool true ]>
                                  (<[ "reply" := VStr (qa_agent r) ]> ∅);
                  st_tick := n |}.
Proof.
  intros Hi.
  destruct (reply_generator_agent email (planner_agent email) ∅) as [r|e] eqn:Hr.
  2:{ rewrite (reply_generator_agent_shape _ _ _ empty_slot_typed) in Hr.
      discriminate Hr. }
  exists r. split; [reflexivity |]. intros clk n.
  unfold process. cbn [snd]. now apply action_executor_other.
Qed.

Lemma other_messages_ignore_the_clock_witness :
  snd (process demo_clock 0 bob) = snd (process last_day_clock 0 bob).
Proof.
  destruct (other_messages_ignore_the_clock bob) as (r & _ & H).
  - vm_compute. discriminate.
  - now rewrite !H.
Defined.

(** A message is processed to the end, with a reply and [sent] true,
    when, if it is a meeting request, the extractor reads a valid date
    before the last. *)
Lemma action_executor_planned (clk : clock) (n : nat) (email : Email) :
  (intent_agent email = "meeting_request" ->
   valid_datetime (wall clk n) /\ ~ last_day (wall clk n)) ->
  exists st r,
    action_executor clk n (planner_agent email) email ∅ = Return st /\
    st_actions st !! "sent" = Some (VBool true) /\
    st_actions st !! "reply" = Some (VStr (qa_agent r)).
Proof.
  intros Hclk.
  assert (Hlook : forall a (r : string),
            (<[ "sent" := VBool true ]> (<[ "reply" := VStr r ]> a)
               : gmap string value) !! "sent" = Some (VBool true) /\
            (<[ "sent" := VBool true ]> (<[ "reply" := VStr r ]> a)
               : gmap string value) !! "reply" = Some (VStr r)).
  { intros a r. split; [apply lookup_insert_eq |].
    rewrite lookup_insert_ne by discriminate. apply lookup_insert_eq. }
  destruct (string_dec (intent_agent email) "meeting_request") as [Hi|Hi].
  - destruct (Hclk Hi) as [Hv Hl].
    destruct (extract_datetime_agent_total _ email Hv Hl) as [dt Hx].
    destruct (extract_datetime_agent_shape _ _ _ Hx) as (v & -> & Hty).
    rewrite (planner_agent_meeting _ Hi).
    destruct (action_executor_returns clk n
                {| intent := "meeting_request"; steps := meeting_steps |}
                email ∅ _ (exec_steps_meeting _ _ _ _ Hx)
                (singleton_slot_typed v Hty)) as (r & _ & ->).
    eexists. exists r. split; [reflexivity |]. apply Hlook.
  - destruct (reply_generator_agent email (planner_agent email) ∅)
      as [r|e] eqn:Hr.
    2:{ rewrite (reply_generator_agent_shape _ _ _ empty_slot_typed) in Hr.
        discriminate Hr. }
    rewrite (action_executor_other clk n email r Hi Hr).
    eexists. exists r. split; [reflexivity |]. apply Hlook.
Qed.

(** X16. Over an inbox of any length the demonstration loop, when every
    date it reads is a valid date before the last, runs to the end and
    fills [results] with one entry per message, in the order of the
    inbox: the message's [id], the plan of the planner for it, and
    [actions] with a reply and [sent] true. *)
Theorem run_inbox_completes (clk : clock) (inbox : list Email) (n : nat) :
  (forall k, valid_datetime (wall clk k) /\ ~ last_day (wall clk k)) ->
  exists results,
    run_inbox clk n inbox = Return results /\
    Forall2 (fun email r =>
               email_id r = id email /\
               out_plan r = planner_agent email /\
               out_actions r !! "sent" = Some (VBool true) /\
               exists reply, out_actions r !! "reply" = Some (VStr reply))
            inbox results.
Proof.
  intros Hclk. revert n. induction inbox as [|email rest IH]; intros n.
  - exists []. split; [reflexivity | constructor].
  - cbn [run_inbox].
    destruct (action_executor_planned clk n email (fun _ => Hclk n))
      as (st & r & -> & Hsent & Hreply).
    cbn [bind]. destruct (IH (st_tick st)) as (results & -> & Hall).
    cbn [bind]. eexists. split; [reflexivity |].
    constructor; [| exact Hall]. cbn [email_id out_plan out_actions].
    repeat split; try assumption. now exists (qa_agent r).
Qed.

Lemma run_inbox_completes_witness :
  exists results,
    run_inbox demo_clock 0 [alice; bob; carol] = Return results /\
    map email_id results = [1; 2; 3].
Proof.
  destruct (run_inbox_completes demo_clock [alice; bob; carol] 0
              (fun _ => epoch_day_valid)) as (results & Hrun & Hall).
  exists results. split; [exact Hrun |].
  inversion Hall as [|? r1 ? l1 (E1 & _) Hall1]; subst.
  inversion Hall1 as [|? r2 ? l2 (E2 & _) Hall2]; subst.
  inversion Hall2 as [|? r3 ? l3 (E3 & _) Hall3]; subst.
  inversion Hall3; subst. cbn [map]. now rewrite E1, E2, E3.
Defined.

(** ** The order of the steps *)

(** X17. The event takes its date from the context as it is when the
    create_event step runs.  On a plan that has create_event before
    extract_datetime, started on an empty context, the event is recorded
    with [None] under [datetime], while context and recorded extraction
    hold what the extractor found afterwards. *)
Theorem create_event_before_extract (clk : clock) (n : nat) (email : Email)
    (name : string) (st : exec_state) :
  action_executor clk n
    {| intent := name; steps := ["create_event"; "extract_datetime"] |}
    email ∅ = Return st ->
  exists v event,
    extract_datetime_agent (wall clk (S n)) email
    = Return {[ "datetime" := v ]} /\
    st_context st !! "datetime" = Some v /\
    st_actions st !! "extract_datetime" = Some (VDict {[ "datetime" := v ]}) /\
    st_actions st !! "create_event" = Some (VDict event) /\
    event !! "datetime" = Some VNone.
Proof.
  intros H.
  destruct (action_executor_inv _ _ _ _ _ _ H) as (st0 & r & Hs & _ & ->).
  cbn [steps exec_steps] in Hs.
  rewrite exec_step_create_event in Hs. cbn [bind] in Hs.
  rewrite exec_step_extract_datetime in Hs. cbn [st_tick] in Hs.
  destruct (extract_datetime_agent (wall clk (S n)) email) as [dt|e] eqn:Hx;
    [| discriminate Hs].
  cbn [bind st_context st_actions] in Hs. injection Hs as <-.
  destruct (extract_datetime_agent_shape _ _ _ Hx) as (v & -> & _).
  cbn [st_context st_actions].
  exists v. eexists.
  split; [reflexivity |]. split; [apply lookup_slot |].
  split.
  { rewrite !lookup_insert_ne by discriminate. apply lookup_insert_eq. }
  split.
  { rewrite !lookup_insert_ne by discriminate. apply lookup_insert_eq. }
  unfold create_event_agent. apply lookup_union_Some_l, lookup_insert_eq.
Qed.

Lemma create_event_before_extract_witness :
  exists st v event,
    action_executor demo_clock 0
      {| intent := "meeting_request";
         steps := ["create_event"; "extract_datetime"] |}
      alice ∅ = Return st /\
    st_context st !! "datetime" = Some v /\
    st_actions st !! "create_event" = Some (VDict event) /\
    event !! "datetime" = Some VNone.
Proof.
  destruct (action_executor demo_clock 0
              {| intent := "meeting_request";
                 steps := ["create_event"; "extract_datetime"] |}
              alice ∅) as [st|e] eqn:Hst;
    [| vm_compute in Hst; discriminate Hst].
  destruct (create_event_before_extract demo_clock 0 alice _ st Hst)
    as (v & event & _ & Hc & _ & He & Hd).
  now exists st, v, event.
Defined.

(** X18. In the plan of every message a create_event step comes only
    after an extract_datetime step, the last step is a draft step, and
    no step occurs twice. *)
Theorem planner_agent_step_order (email : Email) :
  (forall l1 l2,
     steps (planner_agent email) = l1 ++ "create_event" :: l2 ->
     In "extract_datetime" l1) /\
  (exists l last,
     steps (planner_agent email) = l ++ [last] /\
     Str.startswith "draft" last = true) /\
  List.NoDup (steps (planner_agent email)).
Proof.
  destruct (planner_agent_lookup email) as (i & _ & ->). cbn [steps].
  split; [| split].
  - intros l1 l2 E.
    assert (Hin : In "create_event" (plan_table i))
      by (rewrite E; apply in_elt).
    destruct i; cbn [plan_table In] in Hin, E;
      try (exfalso; intuition discriminate).
    destruct l1 as [|a l1]; [discriminate E |].
    injection E as <- _. now left.
  - destruct i; cbn [plan_table].
    + now exists ["extract_datetime"; "create_event"], "draft_reply".
    + now exists ["find_answer"], "draft_reply".
    + now exists [], "draft_ack".
    + now exists [], "draft_general_reply".
  - destruct i; cbn [plan_table];
      repeat (constructor; [cbn [In]; intuition discriminate |]);
      constructor.
Qed.

Lemma planner_agent_step_order_witness :
  In "extract_datetime" ["extract_datetime"].
Proof.
  apply (proj1 (planner_agent_step_order alice)
           ["extract_datetime"] ["draft_reply"]).
  reflexivity.
Defined.

(** ** The lines of the final reply *)

Lemma qa_agent_fixed_iff_witness :
  qa_agent (qa_agent ("Regards" +:+ Str.LF +:+ closing))
  = qa_agent ("Regards" +:+ Str.LF +:+ closing).
Proof.
  apply (proj2 (qa_agent_fixed_iff ("Regards" +:+ Str.LF +:+ closing))).
  reflexivity.
Defined.

Lemma splitlines_tidy (text : string) :
  Forall tidy_line (Str.splitlines (tidy text)).
Proof.
  pose proof (tidy_lines text) as H. unfold tidy.
  now rewrite (splitlines_join _ H).
Qed.

(** X19. The reply [qa_agent] makes of what [reply_generator_agent]
    returns has no blank line and no line with white space at either
    end, while the generated text has a blank line: the blank lines of
    the templates, after the greeting and before the closing, do not
    reach the final reply. *)
Theorem final_reply_has_no_blank_line (email : Email) (plan : Plan)
    (context : gmap string value) (r : string) :
  reply_generator_agent email plan context = Return r ->
  Forall (fun l => l <> "" /\ Str.strip l = l) (Str.splitlines (qa_agent r)) /\
  In "" (Str.splitlines r) /\
  qa_agent r <> r.
Proof.
  intros Hr.
  destruct (reply_generator_agent_signed _ _ _ _ Hr) as [a ->].
  destruct (tidy_ends_with_closing a) as [pre Hpre].
  assert (E : qa_agent (a +:+ Str.LF +:+ Str.LF +:+ closing)
              = tidy (a +:+ Str.LF +:+ Str.LF +:+ closing)).
  { rewrite qa_agent_tidy, Hpre, contains_suffix. reflexivity. }
  assert (Hlines : Forall (fun l => l <> "" /\ Str.strip l = l)
                     (Str.splitlines (qa_agent (a +:+ Str.LF +:+ Str.LF +:+ closing)))).
  { rewrite E. eapply List.Forall_impl; [| apply splitlines_tidy].
    intros l (H1 & _ & H2). now split. }
  assert (Hblank : In "" (Str.splitlines (a +:+ Str.LF +:+ Str.LF +:+ closing))).
  { destruct (splitlines_before_LF _ a (le_n _)) as (l0 & L & HL).
    rewrite !LF_app, HL. apply in_or_app. right.
    rewrite splitlines_LF. now left. }
  split; [exact Hlines | split; [exact Hblank |]].
  intros Heq. rewrite Heq in Hlines.
  rewrite List.Forall_forall in Hlines.
  destruct (Hlines "" Hblank) as [Hne _]. now apply Hne.
Qed.

Lemma final_reply_has_no_blank_line_witness :
  qa_agent ("Hi carol," +:+ Str.LF +:+ Str.LF +:+
            "Thanks for the update — noted." +:+ signature)
  <> "Hi carol," +:+ Str.LF +:+ Str.LF +:+
     "Thanks for the update — noted." +:+ signature.
Proof.
  apply (proj2 (proj2 (final_reply_has_no_blank_line carol
                         (planner_agent carol) ∅ _ eq_refl))).
Defined.

(** ** DateTimeExtractor on every reference date *)

Lemma last_day_dec (d : datetime) : last_day d \/ ~ last_day d.
Proof.
  unfold last_day.
  destruct (Z.eq_dec (year d) 9999), (Z.eq_dec (month d) 12),
    (Z.eq_dec (day d) 31); tauto.
Qed.

(** The day after a valid date: a valid date, one day on, unless the date
    is the last, when there is none. *)
Lemma plus_one_day_cases (now : datetime) :
  valid_datetime now ->
  (exists next, plus_one_day now = Return next /\ valid_datetime next /\
                toordinal next = toordinal now + 1 /\ ~ last_day now) \/
  (plus_one_day now = Raise OverflowError /\ last_day now).
Proof.
  intros Hvalid. destruct (last_day_dec now) as [Hl | Hl].
  - right. split; [now apply plus_one_day_last | exact Hl].
  - left. destruct (plus_one_day_next now Hvalid Hl) as (next & H1 & H2 & H3 & _).
    now exists next.
Qed.

Lemma exec_step_stores (clk : clock) (email : Email) (st : exec_state)
    (v : value) :
  extract_datetime_agent (wall clk (st_tick st)) email
  = Return {[ "datetime" := v ]} ->
  exists st', exec_step clk email st "extract_datetime" = Return st' /\
              st_context st' !! "datetime" = Some v.
Proof.
  intros Hx. rewrite exec_step_extract_datetime, Hx. cbn [bind].
  eexists. split; [reflexivity |]. cbn [st_context].
  apply lookup_union_Some_l, lookup_singleton_eq.
Qed.

Lemma at_16_00_facts (now x d : datetime) :
  valid_datetime x -> toordinal now <= toordinal x <= toordinal now + 1 ->
  VDatetime (at_16_00 x) = VDatetime d ->
  valid_datetime d /\ toordinal now <= toordinal d <= toordinal now + 1 /\
  hour d = 16 /\ minute d = 0 /\ second d = 0 /\ microsecond d = 0.
Proof.
  intros Hx Ho [= <-]. split; [now apply at_16_00_valid |].
  split; [exact Ho | repeat split].
Qed.

(** C4. On every valid reference date the extractor follows the
    precedence "tomorrow", "today", "4 pm" or "4pm" on the lower-cased
    body: the next day, the reference day, the next day, else [None]; it
    returns the dictionary with the one key [datetime]; a resolved value
    is a valid date at 16:00:00.000000; and the extract_datetime step of
    the executor stores it in the context under [datetime].  It raises
    in one case only: on 9999-12-31, when the cue asks for the next day
    ("tomorrow", or "4 pm" or "4pm" without "today"), it raises
    [OverflowError]. *)
Theorem extract_datetime_agent_precedence (now : datetime) (email : Email) :
  valid_datetime now ->
  let text := Str.lower (body email) in
  let next_day_cue :=
    occurs "tomorrow" text \/
    (~ occurs "today" text /\ (occurs "4 pm" text \/ occurs "4pm" text)) in
  (last_day now -> next_day_cue ->
   extract_datetime_agent now email = Raise OverflowError) /\
  (~ (last_day now /\ next_day_cue) ->
   exists v,
     extract_datetime_agent now email = Return {[ "datetime" := v ]} /\
     (occurs "tomorrow" text ->
      exists next, plus_one_day now = Return next /\
                   toordinal next = toordinal now + 1 /\
                   v = VDatetime (at_16_00 next)) /\
     (~ occurs "tomorrow" text -> occurs "today" text ->
      v = VDatetime (at_16_00 now)) /\
     (~ occurs "tomorrow" text -> ~ occurs "today" text ->
      occurs "4 pm" text \/ occurs "4pm" text ->
      exists next, plus_one_day now = Return next /\
                   toordinal next = toordinal now + 1 /\
                   v = VDatetime (at_16_00 next)) /\
     (~ occurs "tomorrow" text -> ~ occurs "today" text ->
      ~ occurs "4 pm" text -> ~ occurs "4pm" text -> v = VNone) /\
     (forall d, v = VDatetime d ->
        valid_datetime d /\
        toordinal now <= toordinal d <= toordinal now + 1 /\
        hour d = 16 /\ minute d = 0 /\ second d = 0 /\ microsecond d = 0) /\
     (forall clk st, wall clk (st_tick st) = now ->
        exists st', exec_step clk email st "extract_datetime" = Return st' /\
                    st_context st' !! "datetime" = Some v)).
Proof.
  intros Hvalid text next_day_cue.
  pose proof (contains_occurs "tomorrow" text) as Htom.
  pose proof (contains_occurs "today" text) as Htod.
  pose proof (contains_occurs "4 pm" text) as H4a.
  pose proof (contains_occurs "4pm" text) as H4b.
  assert (Hstep : forall v,
            extract_datetime_agent now email = Return {[ "datetime" := v ]} ->
            forall clk st, wall clk (st_tick st) = now ->
              exists st', exec_step clk email st "extract_datetime" = Return st' /\
                          st_context st' !! "datetime" = Some v).
  { intros v Hx clk st Hclk. apply exec_step_stores. now rewrite Hclk. }
  assert (Hx : extract_datetime_agent now email =
    if Str.contains "tomorrow" text then
      let* when := plus_one_day now in
      Return {[ "datetime" := VDatetime (at_16_00 when) ]}
    else if Str.contains "today" text then
      Return {[ "datetime" := VDatetime (at_16_00 now) ]}
    else if Str.contains "4 pm" text || Str.contains "4pm" text then
      let* when := plus_one_day now in
      Return {[ "datetime" := VDatetime (at_16_00 when) ]}
    else Return {[ "datetime" := VNone ]}).
  { unfold extract_datetime_agent. fold text.
    destruct (plus_one_day now); cbn [bind];
      rewrite ?insert_singleton_eq; reflexivity. }
  unfold next_day_cue.
  destruct (Str.contains "tomorrow" text) eqn:E1.
  { assert (O1 : occurs "tomorrow" text) by now apply Htom.
    destruct (plus_one_day_cases now Hvalid)
      as [(next & Hn & Hv & Ho & Hl) | (Hn & Hl)];
      rewrite Hn in Hx; cbn [bind] in Hx.
    - split; [intros; contradiction |]. intros _.
      exists (VDatetime (at_16_00 next)).
      split; [exact Hx |]. split; [intros _; now exists next |].
      split; [intros; contradiction |]. split; [intros; contradiction |].
      split; [intros; contradiction |].
      split; [intros d; apply at_16_00_facts; [exact Hv | lia] |].
      now apply Hstep.
    - split; [intros _ _; exact Hx |]. intros Hnot. exfalso. apply Hnot.
      split; [exact Hl | now left]. }
  assert (N1 : ~ occurs "tomorrow" text).
  { intros O. apply Htom in O. congruence. }
  destruct (Str.contains "today" text) eqn:E2.
  { assert (O2 : occurs "today" text) by now apply Htod.
    split; [intros _ [O | [N _]]; contradiction |]. intros _.
    exists (VDatetime (at_16_00 now)).
    split; [exact Hx |]. split; [intros; contradiction |].
    split; [reflexivity |]. split; [intros; contradiction |].
    split; [intros; contradiction |].
    split; [intros d; apply at_16_00_facts; [exact Hvalid | lia] |].
    now apply Hstep. }
  assert (N2 : ~ occurs "today" text).
  { intros O. apply Htod in O. congruence. }
  destruct (Str.contains "4 pm" text || Str.contains "4pm" text) eqn:E3.
  { assert (O3 : occurs "4 pm" text \/ occurs "4pm" text).
    { apply orb_true_iff in E3 as [E | E]; [left; now apply H4a |
                                            right; now apply H4b]. }
    destruct (plus_one_day_cases now Hvalid)
      as [(next & Hn & Hv & Ho & Hl) | (Hn & Hl)];
      rewrite Hn in Hx; cbn [bind] in Hx.
    - split; [intros; contradiction |]. intros _.
      exists (VDatetime (at_16_00 next)).
      split; [exact Hx |]. split; [intros; contradiction |].
      split; [intros; contradiction |].
      split; [intros _ _ _; now exists next |].
      split; [intros _ _ Na Nb; destruct O3; contradiction |].
      split; [intros d; apply at_16_00_facts; [exact Hv | lia] |].
      now apply Hstep.
    - split; [intros _ _; exact Hx |]. intros Hnot. exfalso. apply Hnot.
      split; [exact Hl | right; now split]. }
  apply orb_false_iff in E3 as [E3 E4].
  assert (N3 : ~ occurs "4 pm" text) by (intros O; apply H4a in O; congruence).
  assert (N4 : ~ occurs "4pm" text) by (intros O; apply H4b in O; congruence).
  split; [intros _ [O | [_ [O | O]]]; contradiction |]. intros _.
  exists VNone.
  split; [exact Hx |]. split; [intros; contradiction |].
  split; [intros; contradiction |].
  split; [intros _ _ [O | O]; contradiction |].
  split; [reflexivity |]. split; [intros d [=] |].
  now apply Hstep.
Qed.

Lemma extract_datetime_agent_precedence_witness :
  extract_datetime_agent epoch_day alice
  = Return {[ "datetime" := VDatetime (mkDatetime 2025 1 2 16 0 0 0) ]} /\
  extract_datetime_agent last_morning
    (mkEmail 14 "mia@example.com" "Today" "Can we talk today at 4 pm?"
       epoch_day)
  = Return {[ "datetime" := VDatetime (mkDatetime 9999 12 31 16 0 0 0) ]} /\
  extract_datetime_agent last_morning alice = Raise OverflowError.
Proof.
  split; [| split].
  - destruct (proj2 (extract_datetime_agent_precedence epoch_day alice
                       (proj1 epoch_day_valid)))
      as (v & Hx & Htom & _).
    + intros [Hl _]. exact (proj2 epoch_day_valid Hl).
    + destruct Htom as (next & Hn & _ & ->).
      * apply contains_occurs. vm_compute. reflexivity.
      * injection Hn as <-. exact Hx.
  - destruct (proj2 (extract_datetime_agent_precedence last_morning
                       (mkEmail 14 "mia@example.com" "Today"
                          "Can we talk today at 4 pm?" epoch_day)
                       last_morning_valid))
      as (v & Hx & _ & Htod & _).
    + intros [_ [O | [N _]]].
      * apply contains_occurs in O. vm_compute in O. discriminate O.
      * apply N, contains_occurs. vm_compute. reflexivity.
    + rewrite Htod in Hx; [exact Hx | |].
      * intros O. apply contains_occurs in O. vm_compute in O. discriminate O.
      * apply contains_occurs. vm_compute. reflexivity.
  - apply (proj1 (extract_datetime_agent_precedence last_morning alice
                    last_morning_valid)).
    + now repeat split.
    + left. apply contains_occurs. vm_compute. reflexivity.
Defined.

(** ** End to end: the meeting for tomorrow *)

(** C5. A message with the body "can we meet tomorrow at 4 PM to discuss
    the dataset?" is a meeting_request with the plan extract_datetime,
    create_event, draft_reply.  Read on a valid reference date before
    9999-12-31, processing it returns: the context and the recorded
    extraction hold the day after the reference date at 16:00; the
    recorded event has an [event_id] and that date; [sent] is true; and
    the reply says the meeting is scheduled for that date, printed as
    year-month-day 04:00 PM.  Read on 9999-12-31, processing it raises
    [OverflowError]. *)
Theorem meeting_tomorrow_end_to_end (clk : clock) (n : nat) (email : Email) :
  body email = "can we meet tomorrow at 4 PM to discuss the dataset?" ->
  valid_datetime (wall clk n) ->
  intent_agent email = "meeting_request" /\
  fst (process clk n email)
  = {| intent := "meeting_request";
       steps := ["extract_datetime"; "create_event"; "draft_reply"] |} /\
  (last_day (wall clk n) ->
   snd (process clk n email) = Raise OverflowError) /\
  (~ last_day (wall clk n) ->
   exists next st event reply,
     plus_one_day (wall clk n) = Return next /\
     toordinal next = toordinal (wall clk n) + 1 /\
     snd (process clk n email) = Return st /\
     st_context st !! "datetime" = Some (VDatetime (at_16_00 next)) /\
     st_actions st !! "extract_datetime"
     = Some (VDict {[ "datetime" := VDatetime (at_16_00 next) ]}) /\
     st_actions st !! "create_event" = Some (VDict event) /\
     event !! "event_id"
     = Some (VStr ("evt_" +:+ Str.of_int (int_of_float (epoch clk (S n))))) /\
     event !! "status" = Some (VStr "created") /\
     event !! "datetime" = Some (VDatetime (at_16_00 next)) /\
     st_actions st !! "sent" = Some (VBool true) /\
     st_actions st !! "reply" = Some (VStr reply) /\
     occurs ("I've scheduled the meeting for " +:+
             strftime (at_16_00 next) +:+ ".") reply /\
     strftime (at_16_00 next)
     = Str.of_int (year next) +:+ "-" +:+
       zfill 2 (Str.of_int (month next)) +:+ "-" +:+
       zfill 2 (Str.of_int (day next)) +:+ " 04:00 PM").
Proof.
  intros Hbody Hvalid.
  assert (Hintent : intent_agent email = "meeting_request").
  { rewrite intent_agent_cases.
    assert (E : any_in meeting_words (text_of email) = true).
    { apply any_in_has_word. exists "meet". split; [now left |].
      unfold text_of. rewrite !lower_app, Hbody.
      apply occurs_app_r, occurs_app_r, contains_occurs.
      vm_compute. reflexivity. }
    now rewrite E. }
  assert (Hplan : planner_agent email
                  = {| intent := "meeting_request"; steps := meeting_steps |}).
  { unfold planner_agent. rewrite Hintent. reflexivity. }
  assert (Etom : Str.contains "tomorrow"
                   (Str.lower "can we meet tomorrow at 4 PM to discuss the dataset?")
                 = true) by (vm_compute; reflexivity).
  split; [exact Hintent |].
  split; [unfold process; rewrite Hplan; reflexivity |].
  split.
  { intros Hlast. unfold process, action_executor. rewrite Hplan.
    cbn [snd steps]. unfold meeting_steps. cbn [exec_steps].
    rewrite exec_step_extract_datetime. cbn [st_tick].
    unfold extract_datetime_agent.
    rewrite Hbody, Etom, (plus_one_day_last _ Hlast). reflexivity. }
  intros Hlast.
  destruct (plus_one_day_next _ Hvalid Hlast) as (next & Hnext & _ & Hord & _).
  set (when := at_16_00 next).
  assert (Hx : extract_datetime_agent (wall clk n) email
               = Return {[ "datetime" := VDatetime when ]}).
  { unfold extract_datetime_agent. rewrite Hbody.
    assert (E : Str.contains "tomorrow"
                  (Str.lower "can we meet tomorrow at 4 PM to discuss the dataset?")
                = true) by (vm_compute; reflexivity).
    rewrite E, Hnext. cbn [bind]. now rewrite insert_singleton_eq. }
  assert (Hslot : ({[ "datetime" := VDatetime when ]} ∪ ∅ : gmap string value)
                    !! "datetime" = Some (VDatetime when)).
  { apply lookup_union_Some_l, lookup_singleton_eq. }
  assert (Hget : get ({[ "datetime" := VDatetime when ]} ∪ ∅) "datetime"
                 = VDatetime when).
  { unfold get. now rewrite Hslot. }
  assert (Hsteps := exec_steps_meeting clk n email _ Hx).
  rewrite Hget in Hsteps.
  assert (Hty : datetime_slot_typed ({[ "datetime" := VDatetime when ]} ∪ ∅)).
  { right. right. now exists when. }
  unfold process. rewrite Hplan. cbn [snd].
  destruct (action_executor_returns clk n
              {| intent := "meeting_request"; steps := meeting_steps |}
              email ∅ _ Hsteps Hty) as (r & Hr & ->).
  cbn [st_context st_actions] in *.
  rewrite (reply_generator_agent_shape _ _ _ Hty) in Hr.
  cbn [intent] in Hr. rewrite Hget in Hr. injection Hr as <-.
  exists next. eexists. eexists. eexists.
  split; [exact Hnext |]. split; [exact Hord |].
  split; [reflexivity |]. cbn [st_context st_actions].
  split; [exact Hslot |].
  split.
  { rewrite !lookup_insert_ne by discriminate. apply lookup_insert_eq. }
  split.
  { rewrite !lookup_insert_ne by discriminate. apply lookup_insert_eq. }
  split.
  { apply create_event_agent_event_id.
    rewrite !lookup_insert_ne by discriminate. apply lookup_empty. }
  split.
  { unfold create_event_agent. rewrite lookup_union_r.
    - apply lookup_insert_eq.
    - rewrite !lookup_insert_ne by discriminate. apply lookup_empty. }
  split.
  { unfold create_event_agent. apply lookup_union_Some_l, lookup_insert_eq. }
  split; [apply lookup_insert_eq |].
  split.
  { rewrite lookup_insert_ne by discriminate. apply lookup_insert_eq. }
  split; [| reflexivity].
  change (reply_line "meeting_request" (VDatetime when)) with (meeting_line when).
  match goal with
  | |- occurs _ (qa_agent ?r) =>
      replace r
        with (("Hi " +:+ Str.split_head "@" (sender email) +:+ ",") +:+
              Str.LF +:+ Str.LF +:+ meeting_line when +:+ Str.LF +:+
              (Str.LF +:+ "Best," +:+ Str.LF +:+ "SmartMailr"))
        by (rewrite !app_assoc_str; reflexivity)
  end.
  apply meeting_line_kept.
Qed.

Lemma meeting_tomorrow_end_to_end_witness :
  exists st reply,
    snd (process demo_clock 0 scenario_one) = Return st /\
    st_context st !! "datetime"
    = Some (VDatetime (mkDatetime 2025 1 2 16 0 0 0)) /\
    st_actions st !! "reply" = Some (VStr reply) /\
    occurs "I've scheduled the meeting for 2025-01-02 04:00 PM." reply.
Proof.
  destruct (proj2 (proj2 (proj2
              (meeting_tomorrow_end_to_end demo_clock 0 scenario_one eq_refl
                 (proj1 epoch_day_valid)))) (proj2 epoch_day_valid))
    as (next & st & event & reply & Hnext & _ & Hst & Hctx & _ & _ & _ & _ &
        _ & _ & Hreply & Hocc & _).
  injection Hnext as <-.
  exists st, reply. repeat split; assumption.
Defined.

(** Read on 9999-12-31, the message of the scenario is not processed to
    the end: there is no action result, the call raises. *)
Lemma meeting_tomorrow_overflow :
  valid_datetime (wall last_day_clock 0) /\
  body scenario_one = "can we meet tomorrow at 4 PM to discuss the dataset?" /\
  snd (process last_day_clock 0 scenario_one) = Raise OverflowError.
Proof.
  split; [exact last_morning_valid |].
  split; vm_compute; reflexivity.
Qed.

(** ** The orchestrator completes *)

Lemma extract_datetime_agent_last (now : datetime) (email : Email) :
  last_day now ->
  occurs "tomorrow" (Str.lower (body email)) \/
  (~ occurs "today" (Str.lower (body email)) /\
   (occurs "4 pm" (Str.lower (body email)) \/
    occurs "4pm" (Str.lower (body email)))) ->
  extract_datetime_agent now email = Raise OverflowError.
Proof.
  intros Hl Hcue. unfold extract_datetime_agent.
  rewrite (plus_one_day_last _ Hl). cbn [bind].
  destruct (Str.contains "tomorrow" _) eqn:E1; [reflexivity |].
  destruct Hcue as [O | [N O]].
  - apply contains_occurs in O. congruence.
  - rewrite (contains_false _ _ N).
    assert (E : Str.contains "4 pm" (Str.lower (body email))
                || Str.contains "4pm" (Str.lower (body email)) = true).
    { apply orb_true_iff.
      destruct O as [O | O]; [left | right]; now apply contains_occurs. }
    now rewrite E.
Qed.

Lemma extract_datetime_agent_raise_inv (now : datetime) (email : Email)
    (e : exn) :
  valid_datetime now ->
  extract_datetime_agent now email = Raise e ->
  last_day now /\
  (occurs "tomorrow" (Str.lower (body email)) \/
   (~ occurs "today" (Str.lower (body email)) /\
    (occurs "4 pm" (Str.lower (body email)) \/
     occurs "4pm" (Str.lower (body email))))).
Proof.
  intros Hvalid. unfold extract_datetime_agent.
  destruct (plus_one_day_cases now Hvalid)
    as [(next & -> & _) | (-> & Hl)]; cbn [bind].
  - destruct (Str.contains "tomorrow" _); [discriminate |].
    destruct (Str.contains "today" _); [discriminate |].
    destruct (_ || _); discriminate.
  - destruct (Str.contains "tomorrow" _) eqn:E1.
    { intros _. split; [exact Hl |]. left. now apply contains_occurs. }
    destruct (Str.contains "today" _) eqn:E2; [discriminate |].
    destruct (_ || _) eqn:E3; [| discriminate].
    intros _. split; [exact Hl |]. right. split.
    + intros O. apply contains_occurs in O. congruence.
    + apply orb_true_iff in E3 as [E | E]; [left | right];
        now apply contains_occurs.
Qed.

Lemma sent_and_reply (a : gmap string value) (r : string) :
  (<[ "sent" := VBool true ]> (<[ "reply" := VStr r ]> a)) !! "sent"
  = Some (VBool true) /\
  (<[ "sent" := VBool true ]> (<[ "reply" := VStr r ]> a)) !! "reply"
  = Some (VStr r).
Proof.
  split; [apply lookup_insert_eq |].
  rewrite lookup_insert_ne by discriminate. apply lookup_insert_eq.
Qed.

(** C8. The orchestrator completes, with a reply and [sent] true, on
    every message and every valid reference date but in one case: a
    meeting request whose body asks for the next day ("tomorrow", or
    "4 pm" or "4pm" without "today"), read on 9999-12-31, raises
    [OverflowError].  No call returns without [sent] being true. *)
Theorem process_completes (clk : clock) (n : nat) (email : Email) :
  let text := Str.lower (body email) in
  let next_day_cue :=
    occurs "tomorrow" text \/
    (~ occurs "today" text /\ (occurs "4 pm" text \/ occurs "4pm" text)) in
  let overflows :=
    intent_agent email = "meeting_request" /\ last_day (wall clk n) /\
    next_day_cue in
  (valid_datetime (wall clk n) -> ~ overflows ->
   exists st reply,
     snd (process clk n email) = Return st /\
     st_actions st !! "sent" = Some (VBool true) /\
     st_actions st !! "reply" = Some (VStr reply)) /\
  (overflows -> snd (process clk n email) = Raise OverflowError) /\
  (forall st,
     snd (process clk n email) = Return st ->
     st_actions st !! "sent" = Some (VBool true) /\
     exists reply, st_actions st !! "reply" = Some (VStr reply)).
Proof.
  intros text next_day_cue overflows. unfold process. cbn [snd].
  split; [| split].
  - intros Hvalid Hnot.
    destruct (string_dec (intent_agent email) "meeting_request") as [Hi|Hi].
    + destruct (extract_datetime_agent (wall clk n) email) as [dt|e] eqn:Hx.
      * destruct (extract_datetime_agent_shape _ _ _ Hx) as (v & -> & Hty).
        rewrite (planner_agent_meeting _ Hi).
        destruct (action_executor_returns clk n
                    {| intent := "meeting_request"; steps := meeting_steps |}
                    email ∅ _ (exec_steps_meeting _ _ _ _ Hx)
                    (singleton_slot_typed v Hty)) as (r & _ & ->).
        eexists. exists (qa_agent r). split; [reflexivity |].
        apply sent_and_reply.
      * exfalso. apply Hnot.
        destruct (extract_datetime_agent_raise_inv _ _ _ Hvalid Hx) as [Hl Hc].
        exact (conj Hi (conj Hl Hc)).
    + destruct (reply_generator_agent email (planner_agent email) ∅)
        as [r|e] eqn:Hr.
      2:{ rewrite (reply_generator_agent_shape _ _ _ empty_slot_typed) in Hr.
          discriminate Hr. }
      rewrite (action_executor_other clk n email r Hi Hr).
      eexists. exists (qa_agent r). split; [reflexivity |].
      apply sent_and_reply.
  - intros (Hi & Hl & Hc).
    rewrite (planner_agent_meeting _ Hi). unfold action_executor.
    cbn [steps]. unfold meeting_steps. cbn [exec_steps].
    rewrite exec_step_extract_datetime. cbn [st_tick].
    now rewrite (extract_datetime_agent_last _ _ Hl Hc).
  - intros st H.
    destruct (action_executor_inv _ _ _ _ _ _ H) as (st0 & r & _ & _ & ->).
    cbn [st_actions]. split; [apply sent_and_reply |].
    exists (qa_agent r). apply sent_and_reply.
Qed.

Lemma process_completes_witness :
  (exists st,
     snd (process last_day_clock 0 nina) = Return st /\
     st_actions st !! "sent" = Some (VBool true)) /\
  snd (process last_day_clock 0 grace) = Raise OverflowError.
Proof.
  split.
  - destruct (proj1 (process_completes last_day_clock 0 nina))
      as (st & reply & Hst & Hsent & _).
    + exact last_morning_valid.
    + intros (_ & _ & [O | [N _]]).
      * apply contains_occurs in O. vm_compute in O. discriminate O.
      * apply N, contains_occurs. vm_compute. reflexivity.
    + now exists st.
  - apply (proj1 (proj2 (process_completes last_day_clock 0 grace))).
    split; [reflexivity |]. split; [now repeat split |].
    left. apply contains_occurs. vm_compute. reflexivity.
Defined.

(** The year is printed without padding, the other fields in two digits. *)
Example strftime_early_year :
  strftime (mkDatetime 50 6 16 16 0 0 0) = "50-06-16 04:00 PM" /\
  strftime (mkDatetime 2025 1 2 0 5 0 0) = "2025-01-02 12:05 AM".
Proof. split; reflexivity. Qed.
